(** * Notebook parser: title and output extraction

    A shallow embedding of [src/python/notebook_parser.py].

    Python [str] values are sequences of Unicode code points, so a string
    is a list of code points here.  JSON-decoded values are an inductive
    type with one constructor per Python type that [json.load] can build,
    and every function that can raise returns in an error monad. *)

From Stdlib Require Import List NArith ZArith Bool Lia String Ascii.
Import ListNotations.
Local Open Scope list_scope.

(** ** Strings *)

Definition codepoint := N.
Definition pystr := list codepoint.

(** A literal without quotes or control characters. *)
Definition lit (s : string) : pystr :=
  map N_of_ascii (list_ascii_of_string s).

Definition LF : codepoint := 10%N.
Definition ESC : codepoint := 27%N.
Definition DQUOTE : codepoint := 34%N.
Definition LBRACKET : codepoint := 91%N.

(** The three double quotes that open a docstring. *)
Definition TRIPLE : pystr := [DQUOTE; DQUOTE; DQUOTE].

Fixpoint str_eqb (a b : pystr) : bool :=
  match a, b with
  | [], [] => true
  | x :: a', y :: b' => N.eqb x y && str_eqb a' b'
  | _, _ => false
  end.

Definition nonempty {A : Type} (l : list A) : bool :=
  match l with [] => false | _ :: _ => true end.

(** [Py_UNICODE_ISSPACE]: the code points [str.strip()] removes. *)
Definition isspace (c : codepoint) : bool :=
  ((9 <=? c) && (c <=? 13) || (28 <=? c) && (c <=? 32)
   || (c =? 133) || (c =? 160) || (c =? 5760)
   || (8192 <=? c) && (c <=? 8202)
   || (c =? 8232) || (c =? 8233) || (c =? 8239) || (c =? 8287)
   || (c =? 12288))%N.

Fixpoint lstrip (s : pystr) : pystr :=
  match s with
  | [] => []
  | c :: r => if isspace c then lstrip r else s
  end.

Definition rstrip (s : pystr) : pystr := rev (lstrip (rev s)).

(** [s.strip()] *)
Definition strip (s : pystr) : pystr := rstrip (lstrip s).

(** ** Title extractor *)

(** The greedy character class of the pattern: the longest prefix without
    a line feed, and what follows it. *)
Fixpoint span_line (s : pystr) : pystr * pystr :=
  match s with
  | [] => ([], [])
  | c :: r =>
      if N.eqb c LF then ([], s)
      else let (g, t) := span_line r in (c :: g, t)
  end.

(** The docstring pattern of the source (three double quotes, one or more
    characters other than a line feed, a line feed) tried at the head of
    [s]; the result is group 1.  The class excludes the line feed that must
    follow, so the longest run is the only one that can be followed by it. *)
Definition match_docstring_at (s : pystr) : option pystr :=
  match s with
  | q1 :: q2 :: q3 :: r =>
      if N.eqb q1 DQUOTE && N.eqb q2 DQUOTE && N.eqb q3 DQUOTE then
        match span_line r with
        | (c :: g, n :: _) => if N.eqb n LF then Some (c :: g) else None
        | _ => None
        end
      else None
  | _ => None
  end.

(** [re.search(docstring_pattern, source_text)]: the leftmost position
    where the pattern matches. *)
Fixpoint re_search_docstring (s : pystr) : option pystr :=
  match match_docstring_at s with
  | Some g => Some g
  | None =>
      match s with
      | [] => None
      | _ :: r => re_search_docstring r
      end
  end.

Definition extract_title_from_source (source_text : pystr) : pystr :=
  match re_search_docstring source_text with
  | Some g => strip g
  | None => []
  end.

(** ** Decoded JSON values and exceptions *)

(** What [json.load] builds: [None], [bool], [int], [float] (its binary64
    bit pattern), [str], [list] and [dict] with string keys.  A dict is an
    association list in insertion order; the first binding of a key is the
    one in force. *)
#[warnings="-register-all"] Inductive pyval : Type :=
| PyNone
| PyBool (b : bool)
| PyInt (n : Z)
| PyFloat (bits : Z)
| PyStr (s : pystr)
| PyList (l : list pyval)
| PyDict (d : list (pystr * pyval)).

Inductive exn : Type :=
| AttributeError
| TypeError
| OSError
| UnicodeDecodeError
| JSONDecodeError.

Inductive result (A : Type) : Type :=
| Ok (a : A)
| Raise (e : exn).
Arguments Ok {A} a.
Arguments Raise {A} e.

Definition bind {A B : Type} (c : result A) (k : A -> result B) : result B :=
  match c with
  | Ok a => k a
  | Raise e => Raise e
  end.

Notation "x <- c ;; k" := (bind c (fun x => k))
  (at level 61, c at next level, right associativity).

(** A [for] loop whose body updates the loop state and may raise. *)
Fixpoint for_each {S A : Type} (body : S -> A -> result S)
    (items : list A) (st : S) : result S :=
  match items with
  | [] => Ok st
  | x :: rest => st' <- body st x ;; for_each body rest st'
  end.

(** Truth value of an object: [None], [False], zero, and empty containers
    are false.  A float is zero when all bits but the sign bit are. *)
Definition truthy (v : pyval) : bool :=
  match v with
  | PyNone => false
  | PyBool b => b
  | PyInt n => negb (Z.eqb n 0)
  | PyFloat bits => negb (Z.eqb (bits mod 2 ^ 63) 0)
  | PyStr s => nonempty s
  | PyList l => nonempty l
  | PyDict d => nonempty d
  end.

Fixpoint lookup (key : pystr) (d : list (pystr * pyval)) : option pyval :=
  match d with
  | [] => None
  | (k, v) :: rest => if str_eqb k key then Some v else lookup key rest
  end.

(** [obj.get(key, default)]: only a dict has the method. *)
Definition py_get (obj : pyval) (key : pystr) (default : pyval)
    : result pyval :=
  match obj with
  | PyDict d =>
      Ok (match lookup key d with Some v => v | None => default end)
  | _ => Raise AttributeError
  end.

(** [v == s] for a string literal [s]. *)
Definition eq_str (v : pyval) (s : pystr) : bool :=
  match v with
  | PyStr t => str_eqb t s
  | _ => false
  end.

Fixpoint dict_keys (seen : list pystr) (d : list (pystr * pyval))
    : list pystr :=
  match d with
  | [] => []
  | (k, _) :: rest =>
      if existsb (str_eqb k) seen then dict_keys seen rest
      else k :: dict_keys (k :: seen) rest
  end.

(** The items an object yields when iterated: the elements of a list, the
    characters of a string, the keys of a dict; anything else is not
    iterable. *)
Definition py_iter (v : pyval) : result (list pyval) :=
  match v with
  | PyList l => Ok l
  | PyStr s => Ok (map (fun c => PyStr [c]) s)
  | PyDict d => Ok (map PyStr (dict_keys [] d))
  | _ => Raise TypeError
  end.

(** [sep.join(items)] once [items] has been iterated: every item must be a
    string. *)
Fixpoint join_items (sep : pystr) (items : list pyval) : result pystr :=
  match items with
  | [] => Ok []
  | PyStr s :: rest =>
      match rest with
      | [] => Ok s
      | _ :: _ => t <- join_items sep rest ;; Ok (s ++ sep ++ t)
      end
  | _ :: _ => Raise TypeError
  end.

(** [sep.join(v)] *)
Definition py_join (sep : pystr) (v : pyval) : result pystr :=
  items <- py_iter v ;; join_items sep items.

(** ** ANSI escape removal

    [click.utils.strip_ansi] substitutes the empty string for every match
    of the pattern ESC, left bracket, any run of semicolons, question marks
    and digits, one ASCII letter. *)

Definition is_ansi_param (c : codepoint) : bool :=
  ((c =? 59) || (c =? 63) || (48 <=? c) && (c <=? 57))%N.

Definition is_ascii_letter (c : codepoint) : bool :=
  ((65 <=? c) && (c <=? 90) || (97 <=? c) && (c <=? 122))%N.

Fixpoint span_params (s : pystr) : pystr * pystr :=
  match s with
  | [] => ([], [])
  | c :: r =>
      if is_ansi_param c then let (g, t) := span_params r in (c :: g, t)
      else ([], s)
  end.

(** The length of the match at the head of [s], if there is one. *)
Definition match_ansi_at (s : pystr) : option nat :=
  match s with
  | e :: b :: r =>
      if N.eqb e ESC && N.eqb b LBRACKET then
        let (ps, t) := span_params r in
        match t with
        | c :: _ => if is_ascii_letter c then Some (3 + List.length ps) else None
        | [] => None
        end
      else None
  | _ => None
  end.

(** Left-to-right substitution; [skip] counts the code points of the
    current match still to drop. *)
Fixpoint sub_ansi (skip : nat) (s : pystr) : pystr :=
  match s with
  | [] => []
  | c :: r =>
      match skip with
      | S k => sub_ansi k r
      | O =>
          match match_ansi_at s with
          | Some n => sub_ansi (pred n) r
          | None => c :: sub_ansi 0 r
          end
      end
  end.

Definition remove_ansi_codes (value : pystr) : pystr := sub_ansi 0 value.

(** ** Output normalizer *)

(** The body of the loop over [outputs]; the loop state is the list
    [output_texts]. *)
Definition output_body (output_texts : list pyval) (output : pyval)
    : result (list pyval) :=
  output_type <- py_get output (lit "output_type") (PyStr []) ;;
  if eq_str output_type (lit "stream") then
    text <- py_get output (lit "text") (PyList []) ;;
    match text with
    | PyList l => Ok (output_texts ++ l)
    | _ => Ok (output_texts ++ [text])
    end
  else if eq_str output_type (lit "execute_result") then
    data <- py_get output (lit "data") (PyDict []) ;;
    text_plain <- py_get data (lit "text/plain") (PyList []) ;;
    match text_plain with
    | PyList l => Ok (output_texts ++ l)
    | _ => Ok (output_texts ++ [text_plain])
    end
  else if eq_str output_type (lit "error") then
    traceback <- py_get output (lit "traceback") (PyList []) ;;
    if truthy traceback then
      joined <- py_join [LF] traceback ;;
      Ok (output_texts ++ [PyStr joined])
    else Ok output_texts
  else Ok output_texts.

(** The fragments accumulated by the loop. *)
Definition collect_output_texts (outputs : pyval) : result (list pyval) :=
  items <- py_iter outputs ;; for_each output_body items [].

Definition extract_output_from_outputs (outputs : pyval) : result pystr :=
  output_texts <- collect_output_texts outputs ;;
  joined <- join_items [] output_texts ;;
  let raw_output := strip joined in
  Ok (remove_ansi_codes raw_output).

(** ** Cell and document extractor *)

Record entry : Type := { title : pystr; output : pystr }.

(** The call [extract_title_from_source(source_text)] on an arbitrary
    object: [re.search] accepts only a string. *)
Definition call_extract_title (source_text : pyval) : result pystr :=
  match source_text with
  | PyStr s => Ok (extract_title_from_source s)
  | _ => Raise TypeError
  end.

(** The body of the loop over the cells; the loop state is [results]. *)
Definition cell_body (results : list entry) (cell : pyval)
    : result (list entry) :=
  cell_type <- py_get cell (lit "cell_type") PyNone ;;
  if negb (eq_str cell_type (lit "code")) then Ok results else
  source <- py_get cell (lit "source") (PyList []) ;;
  if negb (truthy source) then Ok results else
  source_text <- match source with
                 | PyList _ => s <- py_join [] source ;; Ok (PyStr s)
                 | _ => Ok source
                 end ;;
  title <- call_extract_title source_text ;;
  outputs <- py_get cell (lit "outputs") (PyList []) ;;
  output_text <- extract_output_from_outputs outputs ;;
  if nonempty title && nonempty output_text then
    Ok (results ++ [{| title := title; output := output_text |}])
  else Ok results.

(** [parse_jupyter_notebook] from the decoded document on: the loop over
    [notebook.get('cells', [])] and the returned [results]. *)
Definition parse_notebook (notebook : pyval) : result (list entry) :=
  cells <- py_get notebook (lit "cells") (PyList []) ;;
  items <- py_iter cells ;;
  for_each cell_body items [].

(** ** Files *)

(** The file system: the bytes stored at each path, if any. *)
Record world : Type := { files : pystr -> option (list N) }.

Section Files.

(** [json.load] on an open text file: UTF-8 decoding of the bytes and JSON
    decoding of the text, either of which may raise. *)
Variable json_load : list N -> result pyval.

(** The function reads the file and leaves the world as it found it. *)
Definition parse_jupyter_notebook (w : world) (notebook_path : pystr)
    : result (list entry) * world :=
  match files w notebook_path with
  | None => (Raise OSError, w)
  | Some bytes =>
      (notebook <- json_load bytes ;; parse_notebook notebook, w)
  end.

End Files.

(** ** Default output path *)

Fixpoint is_prefix (p s : pystr) : bool :=
  match p, s with
  | [], _ => true
  | x :: p', y :: s' => N.eqb x y && is_prefix p' s'
  | _ :: _, [] => false
  end.

(** [s.replace(old, new)] for a non-empty [old]: every occurrence, left to
    right, without overlap; [skip] counts the code points of the current
    occurrence still to drop. *)
Fixpoint replace_from (old new : pystr) (skip : nat) (s : pystr) : pystr :=
  match s with
  | [] => []
  | c :: r =>
      match skip with
      | S k => replace_from old new k r
      | O =>
          if is_prefix old s
          then new ++ replace_from old new (pred (List.length old)) r
          else c :: replace_from old new 0 r
      end
  end.

Definition str_replace (s old new : pystr) : pystr :=
  replace_from old new 0 s.

(** The value of [output_path] after the first statement of
    [save_parsed_results]. *)
Definition save_parsed_results_output_path
    (notebook_path : pystr) (output_path : option pystr) : pystr :=
  match output_path with
  | None => str_replace notebook_path (lit ".ipynb") (lit "_parsed.json")
  | Some p => p
  end.

(** ** The output normalizer as the specification words it

    Output records as the tagged variant of the data model, with a text that
    is one string or a sequence of strings. *)

Inductive text_value : Type :=
| Scalar (s : pystr)
| Lines (l : list pystr).

Inductive OutputRecord : Type :=
| Stream (text : text_value)
| ExecuteResult (text_plain : option text_value)
| Error (traceback : list pystr)
| Other (output_type : pystr).

Fixpoint join_lines (sep : pystr) (lines : list pystr) : pystr :=
  match lines with
  | [] => []
  | s :: rest =>
      match rest with
      | [] => s
      | _ :: _ => s ++ sep ++ join_lines sep rest
      end
  end.

Definition text_fragments (t : text_value) : list pystr :=
  match t with
  | Scalar s => [s]
  | Lines l => l
  end.

(** What one record appends to the buffer of fragments. *)
Definition record_fragments (r : OutputRecord) : list pystr :=
  match r with
  | Stream t => text_fragments t
  | ExecuteResult (Some t) => text_fragments t
  | ExecuteResult None => []
  | Error [] => []
  | Error (l :: ls) => [join_lines [LF] (l :: ls)]
  | Other _ => []
  end.

(** Concatenate without separator, trim, then strip the escapes. *)
Definition spec_extract_output (outputs : list OutputRecord) : pystr :=
  remove_ansi_codes (strip (List.concat (flat_map record_fragments outputs))).

Definition encode_text (t : text_value) : pyval :=
  match t with
  | Scalar s => PyStr s
  | Lines l => PyList (map PyStr l)
  end.

(** [encodes v r]: the decoded JSON object [v] is the record [r]; fields
    that the record does not use may be present. *)
Definition encodes (v : pyval) (r : OutputRecord) : Prop :=
  exists d, v = PyDict d /\
  match r with
  | Stream t =>
      lookup (lit "output_type") d = Some (PyStr (lit "stream"))
      /\ lookup (lit "text") d = Some (encode_text t)
  | ExecuteResult o =>
      lookup (lit "output_type") d = Some (PyStr (lit "execute_result"))
      /\ exists data,
          lookup (lit "data") d = Some (PyDict data)
          /\ lookup (lit "text/plain") data = option_map encode_text o
  | Error tb =>
      lookup (lit "output_type") d = Some (PyStr (lit "error"))
      /\ lookup (lit "traceback") d = Some (PyList (map PyStr tb))
  | Other tag =>
      lookup (lit "output_type") d = Some (PyStr tag)
      /\ tag <> lit "stream" /\ tag <> lit "execute_result"
      /\ tag <> lit "error"
  end.

(** ** Sample documents *)

Definition code_cell (source outputs : pyval) : pyval :=
  PyDict [(lit "cell_type", PyStr (lit "code"));
          (lit "source", source);
          (lit "outputs", outputs)].

Definition stream_record (text : pyval) : pyval :=
  PyDict [(lit "output_type", PyStr (lit "stream")); (lit "text", text)].

Definition error_record (traceback : pyval) : pyval :=
  PyDict [(lit "output_type", PyStr (lit "error"));
          (lit "traceback", traceback)].

Definition notebook_of (cells : list pyval) : pyval :=
  PyDict [(lit "cells", PyList cells)].

Definition compute_sum_source : pystr :=
  TRIPLE ++ lit "Compute Sum" ++ [LF] ++ lit "Adds two numbers" ++ [LF]
    ++ TRIPLE ++ [LF] ++ lit "print(1+1)".

(** ** Where a docstring title stands in a source

    [docstring_at s i g]: at index [i] of [s] stand three double quotes,
    then the non-empty text [g] without a line feed, then a line feed. *)
Definition docstring_at (s : pystr) (i : nat) (g : pystr) : Prop :=
  exists pre post,
    s = pre ++ TRIPLE ++ g ++ LF :: post
    /\ List.length pre = i /\ g <> [] /\ ~ In LF g.

(** The first such place in [s]. *)
Definition first_docstring (s : pystr) (i : nat) (g : pystr) : Prop :=
  docstring_at s i g /\ forall j g', docstring_at s j g' -> i <= j.

(** ** Sample data and auxiliary notions *)

Definition two_docstrings : pystr :=
  lit "x = 1" ++ [LF] ++ TRIPLE ++ lit " First " ++ [LF] ++ TRIPLE ++ [LF]
    ++ TRIPLE ++ lit "Second" ++ [LF] ++ TRIPLE.

Definition sample_outputs : list pyval :=
  [stream_record (PyList [PyStr (lit "a" ++ [LF]); PyStr (lit "b" ++ [LF])]);
   PyDict [(lit "output_type", PyStr (lit "display_data"));
           (lit "data", PyDict [])];
   PyDict [(lit "output_type", PyStr (lit "execute_result"));
           (lit "data", PyDict [(lit "text/plain", PyStr (lit "3"))])];
   error_record (PyList [PyStr (lit "E1"); PyStr (lit "E2")])].

Definition sample_records : list OutputRecord :=
  [Stream (Lines [lit "a" ++ [LF]; lit "b" ++ [LF]]);
   Other (lit "display_data");
   ExecuteResult (Some (Scalar (lit "3")));
   Error [lit "E1"; lit "E2"]].

Definition traceback_cell : pyval :=
  code_cell (PyStr compute_sum_source)
    (PyList [error_record
               (PyList [PyStr (lit "Traceback (most recent call last):");
                        PyStr (lit "ValueError: bad")])]).

Definition entry_ok (e : entry) : Prop := title e <> [] /\ output e <> [].

Ltac step_binds H :=
  repeat match type of H with
    | bind ?c _ = Ok _ =>
        let E := fresh "E" in
        destruct c eqn:E; cbn [bind] in H; [|discriminate H]
    | (if ?b then _ else _) = Ok _ =>
        let E := fresh "B" in destruct b eqn:E
    end.

Definition mixed_notebook : pyval :=
  notebook_of
    [code_cell (PyStr compute_sum_source)
       (PyList [stream_record (PyList [PyStr (lit "2" ++ [LF])])]);
     code_cell (PyStr compute_sum_source) (PyList []);
     code_cell (PyStr (lit "x = 1")) (PyList [stream_record (PyStr (lit "1"))]);
     PyDict [(lit "cell_type", PyStr (lit "markdown"));
             (lit "source", PyStr compute_sum_source)]].

(** A decoder for the sample files: it knows the text of the empty object
    and of nothing else. *)
Definition sample_json_load (bytes : list N) : result pyval :=
  if str_eqb bytes (lit "{}") then Ok (PyDict []) else Raise JSONDecodeError.

Definition sample_world : world :=
  {| files := fun path =>
       if str_eqb path (lit "empty.ipynb") then Some (lit "{}") else None |}.

Definition other_world : world :=
  {| files := fun path =>
       if str_eqb path (lit "empty.ipynb") then Some (lit "{}")
       else Some (lit "[]") |}.

(** The joined source text of a cell: its source is that string, or a list
    of string fragments that concatenate to it. *)
Definition source_of (d : list (pystr * pyval)) (s : pystr) : Prop :=
  lookup (lit "source") d = Some (PyStr s)
  \/ exists frags,
       lookup (lit "source") d = Some (PyList (map PyStr frags))
       /\ List.concat frags = s.

Definition outputs_of (d : list (pystr * pyval)) : pyval :=
  match lookup (lit "outputs") d with
  | Some v => v
  | None => PyList []
  end.

Definition blank_first_line_source : pystr :=
  TRIPLE ++ [LF] ++ lit "Doc" ++ [LF] ++ TRIPLE ++ [LF]
    ++ lit "s = " ++ TRIPLE ++ lit "hello" ++ [LF] ++ TRIPLE ++ [LF]
    ++ lit "print(s)".

(** A string without whitespace at its first and at its last position. *)
Definition no_blank_ends (s : pystr) : Prop :=
  (forall c r, s = c :: r -> isspace c = false)
  /\ (forall r c, s = r ++ [c] -> isspace c = false).

Definition is_pystr (v : pyval) : bool :=
  match v with
  | PyStr _ => true
  | _ => false
  end.

Definition execute_result_record (text_plain : pyval) : pyval :=
  PyDict [(lit "output_type", PyStr (lit "execute_result"));
          (lit "data", PyDict [(lit "text/plain", text_plain)])].

(** [notebook_cells notebook cells]: the decoded document is an object whose
    key cells holds the list [cells]; other keys may be present. *)
Definition notebook_cells (notebook : pyval) (cells : list pyval) : Prop :=
  exists d, notebook = PyDict d /\ lookup (lit "cells") d = Some (PyList cells).

(** ** Cells as the data model words them *)

Record Cell : Type := {
  cell_type : pystr;
  source : option text_value;
  outputs : option (list OutputRecord)
}.

Definition text_is_empty (t : text_value) : bool :=
  match t with
  | Scalar s => negb (nonempty s)
  | Lines l => negb (nonempty l)
  end.

(** The entries a cell gives: none or one. *)
Definition cell_entries (c : Cell) : list entry :=
  if negb (str_eqb (cell_type c) (lit "code")) then []
  else
    match source c with
    | None => []
    | Some t =>
        if text_is_empty t then []
        else
          let title := extract_title_from_source
                         (List.concat (text_fragments t)) in
          let output_text :=
            spec_extract_output
              (match outputs c with Some rs => rs | None => [] end) in
          if nonempty title && nonempty output_text
          then [{| title := title; output := output_text |}]
          else []
    end.

(** [encodes_cell v c]: the decoded JSON object [v] is the cell [c]; fields
    that the cell does not use may be present. *)
Definition encodes_cell (v : pyval) (c : Cell) : Prop :=
  exists d, v = PyDict d
  /\ lookup (lit "cell_type") d = Some (PyStr (cell_type c))
  /\ lookup (lit "source") d = option_map encode_text (source c)
  /\ match outputs c with
     | Some rs =>
         exists vs, lookup (lit "outputs") d = Some (PyList vs)
                    /\ Forall2 encodes vs rs
     | None => lookup (lit "outputs") d = None
     end.

Definition markdown_cell (source : pyval) : pyval :=
  PyDict [(lit "cell_type", PyStr (lit "markdown")); (lit "source", source)].

(** One escape sequence of the pattern that the removal deletes. *)
Definition ansi_sequence (q : pystr) : Prop :=
  exists ps c,
    q = ESC :: LBRACKET :: ps ++ [c]
    /\ Forall (fun p => is_ansi_param p = true) ps
    /\ is_ascii_letter c = true.

(** ** The text that the results are saved as

    [json.dump(results, f, indent=2, ensure_ascii=False)] on a list of
    objects with the two string fields title and output. *)

Definition BACKSLASH : codepoint := 92%N.

(** One lower-case hexadecimal digit. *)
Definition hex_digit (n : N) : codepoint :=
  (if n <? 10 then 48 + n else 87 + n)%N.

(** How the encoder writes one code point inside a string literal: quote
    and backslash behind a backslash, the five short escapes, the other
    code points below 32 as a four-digit escape, everything else as it
    is. *)
Definition escape_char (c : codepoint) : pystr :=
  (if c =? 34 then [BACKSLASH; 34]
   else if c =? 92 then [BACKSLASH; 92]
   else if c =? 8 then [BACKSLASH; 98]
   else if c =? 12 then [BACKSLASH; 102]
   else if c =? 10 then [BACKSLASH; 110]
   else if c =? 13 then [BACKSLASH; 114]
   else if c =? 9 then [BACKSLASH; 116]
   else if c <? 32 then
     [BACKSLASH; 117; 48; 48; hex_digit (c / 16); hex_digit (c mod 16)]
   else [c])%N.

Definition encode_basestring (s : pystr) : pystr :=
  DQUOTE :: flat_map escape_char s ++ [DQUOTE].

(** One entry at nesting level one, its fields at level two. *)
Definition dump_entry (e : entry) : pystr :=
  lit "{" ++ [LF] ++ lit "    "
    ++ encode_basestring (lit "title") ++ lit ": "
    ++ encode_basestring (title e) ++ lit "," ++ [LF] ++ lit "    "
    ++ encode_basestring (lit "output") ++ lit ": "
    ++ encode_basestring (output e) ++ [LF] ++ lit "  }".

Fixpoint dump_entries (es : list entry) : pystr :=
  match es with
  | [] => []
  | e :: rest =>
      match rest with
      | [] => dump_entry e
      | _ :: _ => dump_entry e ++ lit "," ++ [LF] ++ lit "  " ++ dump_entries rest
      end
  end.

Definition json_dump_text (results : list entry) : pystr :=
  match results with
  | [] => lit "[]"
  | _ :: _ => lit "[" ++ [LF] ++ lit "  " ++ dump_entries results ++ [LF] ++ lit "]"
  end.

(** Reading a string literal back, from behind its opening quote: the text
    and what follows the closing quote. *)

Definition hex_val (c : codepoint) : N :=
  (if c <? 58 then c - 48 else c - 87)%N.

Definition unescape_short (e : codepoint) : codepoint :=
  (if e =? 98 then 8
   else if e =? 102 then 12
   else if e =? 110 then 10
   else if e =? 114 then 13
   else if e =? 116 then 9
   else e)%N.

Definition push (c : codepoint) (r : option (pystr * pystr))
    : option (pystr * pystr) :=
  match r with
  | Some (s, t) => Some (c :: s, t)
  | None => None
  end.

Fixpoint read_string_body (l : pystr) : option (pystr * pystr) :=
  match l with
  | [] => None
  | c :: r =>
      if N.eqb c DQUOTE then Some ([], r)
      else if N.eqb c BACKSLASH then
        match r with
        | [] => None
        | e :: r1 =>
            if N.eqb e 117 then
              match r1 with
              | h1 :: h2 :: h3 :: h4 :: r2 =>
                  push (((hex_val h1 * 16 + hex_val h2) * 16 + hex_val h3) * 16
                        + hex_val h4)%N
                    (read_string_body r2)
              | _ => None
              end
            else push (unescape_short e) (read_string_body r1)
        end
      else push c (read_string_body r)
  end.

(** ** Trimming and escape removal, stated without the functions

    [trimmed_of g t]: [t] is [g] without the whitespace at its two ends. *)
Definition trimmed_of (g t : pystr) : Prop :=
  exists ws1 ws2,
    g = ws1 ++ t ++ ws2
    /\ Forall (fun c => isspace c = true) ws1
    /\ Forall (fun c => isspace c = true) ws2
    /\ no_blank_ends t.

Definition no_blank_endsb (s : pystr) : bool :=
  match s with [] => true | c :: _ => negb (isspace c) end
  && match rev s with [] => true | c :: _ => negb (isspace c) end.

(** [ansi_removed s out]: [out] is [s] read from left to right, with every
    escape sequence met dropped and every other code point kept. *)
Inductive ansi_removed : pystr -> pystr -> Prop :=
| ansi_removed_nil : ansi_removed [] []
| ansi_removed_drop (q rest out : pystr) :
    ansi_sequence q -> ansi_removed rest out -> ansi_removed (q ++ rest) out
| ansi_removed_keep (c : codepoint) (rest out : pystr) :
    (forall q t, ansi_sequence q -> c :: rest <> q ++ t) ->
    ansi_removed rest out -> ansi_removed (c :: rest) (c :: out).

(** [encodes_with_defaults v r]: as [encodes], or the object [v] lacks the
    field that carries the text of [r], which then counts as empty: a stream
    without text, a result without data, an error without traceback, a
    record without type. *)
Definition encodes_with_defaults (v : pyval) (r : OutputRecord) : Prop :=
  encodes v r
  \/ exists d, v = PyDict d /\
     match r with
     | Stream t =>
         lookup (lit "output_type") d = Some (PyStr (lit "stream"))
         /\ lookup (lit "text") d = None /\ t = Lines []
     | ExecuteResult o =>
         lookup (lit "output_type") d = Some (PyStr (lit "execute_result"))
         /\ lookup (lit "data") d = None /\ o = None
     | Error tb =>
         lookup (lit "output_type") d = Some (PyStr (lit "error"))
         /\ lookup (lit "traceback") d = None /\ tb = []
     | Other tag => lookup (lit "output_type") d = None /\ tag = []
     end.

Definition padded_title_source : pystr :=
  TRIPLE ++ lit "  Plot data  " ++ [LF] ++ lit "plot(x)" ++ [LF].

Definition coloured_outputs : list pyval :=
  [stream_record
     (PyStr (lit "  " ++ [ESC] ++ lit "[31mred" ++ [ESC] ++ lit "[0m text "
               ++ [LF]));
   PyDict [(lit "output_type", PyStr (lit "stream"))];
   PyDict [(lit "output_type", PyStr (lit "error"))];
   PyDict [(lit "name", PyStr (lit "stdout"))]].

Definition coloured_records : list OutputRecord :=
  [Stream (Scalar (lit "  " ++ [ESC] ++ lit "[31mred" ++ [ESC] ++ lit "[0m text "
                     ++ [LF]));
   Stream (Lines []);
   Error [];
   Other []].

Definition padded_outputs : list pyval :=
  [stream_record (PyStr (lit "  a" ++ [LF]));
   stream_record (PyList [PyStr (lit "b "); PyStr [LF]])].

Definition padded_records : list OutputRecord :=
  [Stream (Scalar (lit "  a" ++ [LF])); Stream (Lines [lit "b "; [LF]])].

(** * Sample runs *)

Example title_compute_sum :
  extract_title_from_source
    (TRIPLE ++ lit "Compute Sum" ++ [LF] ++ lit "Adds two numbers" ++ [LF]
       ++ TRIPLE ++ [LF] ++ lit "print(1+1)")
  = lit "Compute Sum".
Proof. reflexivity. Qed.

Example title_none : extract_title_from_source (lit "x = 1") = [].
Proof. reflexivity. Qed.

Example remove_ansi_red :
  remove_ansi_codes ([ESC] ++ lit "[31;1mred" ++ [ESC] ++ lit "[0m!")
  = lit "red!".
Proof. reflexivity. Qed.

Example scenario_compute_sum :
  parse_notebook
    (notebook_of
       [code_cell (PyStr compute_sum_source)
          (PyList [stream_record (PyList [PyStr (lit "2" ++ [LF])])])])
  = Ok [{| title := lit "Compute Sum"; output := lit "2" |}].
Proof. reflexivity. Qed.

Example scenario_no_docstring :
  parse_notebook
    (notebook_of
       [code_cell (PyStr (lit "x = 1"))
          (PyList [stream_record (PyList [PyStr (lit "2" ++ [LF])])])])
  = Ok [].
Proof. reflexivity. Qed.

Example default_path_plain :
  save_parsed_results_output_path (lit "examples/example_publish.ipynb") None
  = lit "examples/example_publish_parsed.json".
Proof. reflexivity. Qed.

(** * Trimming *)

Lemma lstrip_split (s : pystr) :
  exists a, s = a ++ lstrip s /\ Forall (fun c => isspace c = true) a.
Proof.
  induction s as [|c s (a & E & Ha)]; simpl.
  - exists []. auto.
  - destruct (isspace c) eqn:Hc.
    + exists (c :: a). split; [simpl; congruence | now constructor].
    + exists []. auto.
Qed.

Lemma lstrip_head (s : pystr) (c : codepoint) (r : pystr) :
  lstrip s = c :: r -> isspace c = false.
Proof.
  induction s as [|x s IH]; simpl; [discriminate|].
  destruct (isspace x) eqn:Hx; [exact IH|].
  intros E. injection E as <- _. exact Hx.
Qed.

Lemma rstrip_split (s : pystr) :
  exists b, s = rstrip s ++ b /\ Forall (fun c => isspace c = true) b.
Proof.
  unfold rstrip. destruct (lstrip_split (rev s)) as (a & E & Ha).
  exists (rev a). split.
  - rewrite <- rev_app_distr, <- E. now rewrite rev_involutive.
  - now apply Forall_rev.
Qed.

Lemma rstrip_last (s r : pystr) (c : codepoint) :
  rstrip s = r ++ [c] -> isspace c = false.
Proof.
  unfold rstrip. intros E. apply (f_equal (@rev codepoint)) in E.
  rewrite rev_involutive, rev_app_distr in E. simpl in E.
  exact (lstrip_head _ _ _ E).
Qed.

Lemma strip_split (s : pystr) :
  exists a b, s = a ++ strip s ++ b.
Proof.
  unfold strip. destruct (lstrip_split s) as (a & Ea & _).
  destruct (rstrip_split (lstrip s)) as (b & Eb & _).
  exists a, b. now rewrite <- Eb.
Qed.

Lemma strip_ends (s : pystr) : no_blank_ends (strip s).
Proof.
  unfold strip. split.
  - intros c r E. destruct (rstrip_split (lstrip s)) as (b & Eb & _).
    rewrite E in Eb. simpl in Eb. exact (lstrip_head _ _ _ Eb).
  - intros r c E. exact (rstrip_last _ _ _ E).
Qed.

Lemma lstrip_spaces (ws : pystr) :
  Forall (fun c => isspace c = true) ws -> lstrip ws = [].
Proof.
  induction 1 as [|c ws Hc _ IH]; simpl; [reflexivity|].
  now rewrite Hc.
Qed.

Lemma strip_spaces (ws : pystr) :
  Forall (fun c => isspace c = true) ws -> strip ws = [].
Proof.
  intros H. unfold strip. now rewrite lstrip_spaces.
Qed.

Lemma lstrip_unique (a x : pystr) :
  Forall (fun c => isspace c = true) a ->
  (forall c r, x = c :: r -> isspace c = false) ->
  lstrip (a ++ x) = x.
Proof.
  induction 1 as [|y a Hy _ IH]; intros Hx; simpl.
  - destruct x as [|c r]; [reflexivity|]. simpl. now rewrite (Hx c r eq_refl).
  - rewrite Hy. now apply IH.
Qed.

Lemma strip_trimmed (g : pystr) : trimmed_of g (strip g).
Proof.
  destruct (lstrip_split g) as (a & Ea & Ha).
  destruct (rstrip_split (lstrip g)) as (b & Eb & Hb).
  exists a, b. repeat split; try assumption; try apply strip_ends.
  unfold strip. now rewrite <- Eb.
Qed.

(** The trimmed text of a string is unique, and [strip] computes it. *)
Lemma trimmed_of_strip (g t : pystr) : trimmed_of g t -> t = strip g.
Proof.
  intros (a & b & -> & Ha & Hb & Hf & Hl). destruct t as [|c r].
  - symmetry. apply strip_spaces. apply Forall_app. auto.
  - unfold strip. rewrite (lstrip_unique a ((c :: r) ++ b) Ha).
    + unfold rstrip. rewrite rev_app_distr.
      rewrite (lstrip_unique (rev b) (rev (c :: r))).
      * now rewrite rev_involutive.
      * now apply Forall_rev.
      * intros x y E. apply (f_equal (@rev codepoint)) in E.
        rewrite rev_involutive in E. exact (Hl (rev y) x E).
    + intros x y E. injection E as <- _. exact (Hf c r eq_refl).
Qed.

Lemma trimmed_of_unique (g t t' : pystr) :
  trimmed_of g t -> trimmed_of g t' -> t = t'.
Proof.
  intros H H'.
  rewrite (trimmed_of_strip _ _ H), (trimmed_of_strip _ _ H'). reflexivity.
Qed.

Lemma no_blank_endsb_ok (s : pystr) :
  no_blank_endsb s = true -> no_blank_ends s.
Proof.
  unfold no_blank_endsb. rewrite andb_true_iff. intros [Hf Hl]. split.
  - intros c r ->. now apply negb_true_iff in Hf.
  - intros r c ->. rewrite rev_app_distr in Hl. now apply negb_true_iff in Hl.
Qed.

(** * Title extractor *)

Lemma str_eqb_eq (a b : pystr) : str_eqb a b = true <-> a = b.
Proof.
  revert b; induction a as [|x a IH]; intros [|y b]; simpl;
    try (split; [discriminate | discriminate]); try tauto.
  rewrite andb_true_iff, N.eqb_eq, IH. split.
  - intros [-> ->]; reflexivity.
  - intros H; injection H; auto.
Qed.

Lemma span_line_app (g post : pystr) :
  ~ In LF g -> span_line (g ++ LF :: post) = (g, LF :: post).
Proof.
  induction g as [|c g IH]; simpl; intros H.
  - reflexivity.
  - destruct (N.eqb_spec c LF) as [E|_]; [tauto|].
    rewrite IH by tauto. reflexivity.
Qed.

Lemma span_line_split (s g t : pystr) :
  span_line s = (g, t) -> s = g ++ t /\ ~ In LF g.
Proof.
  revert g t; induction s as [|c s IH]; simpl; intros g t H.
  - injection H as <- <-. auto.
  - destruct (N.eqb_spec c LF) as [E|NE].
    + injection H as <- <-. auto.
    + destruct (span_line s) as [g' t'] eqn:E'.
      injection H as <- <-. destruct (IH _ _ eq_refl) as [-> Hn].
      split; [reflexivity|]. simpl. intros [F|F]; [congruence | tauto].
Qed.

Lemma match_docstring_at_intro (g post : pystr) :
  g <> [] -> ~ In LF g ->
  match_docstring_at (TRIPLE ++ g ++ LF :: post) = Some g.
Proof.
  intros Hg Hn. simpl. rewrite span_line_app by assumption.
  destruct g; [congruence | reflexivity].
Qed.

Lemma match_docstring_at_elim (s g : pystr) :
  match_docstring_at s = Some g ->
  exists post, s = TRIPLE ++ g ++ LF :: post /\ g <> [] /\ ~ In LF g.
Proof.
  destruct s as [|q1 [|q2 [|q3 r]]]; simpl; try discriminate.
  destruct (N.eqb_spec q1 DQUOTE) as [->|]; [|discriminate].
  destruct (N.eqb_spec q2 DQUOTE) as [->|]; [|discriminate].
  destruct (N.eqb_spec q3 DQUOTE) as [->|]; [|discriminate].
  simpl. destruct (span_line r) as [g' t] eqn:E.
  destruct g' as [|c g']; [discriminate|].
  destruct t as [|n t]; [discriminate|].
  destruct (N.eqb_spec n LF) as [->|]; [|discriminate].
  intros H; injection H as <-.
  destruct (span_line_split _ _ _ E) as [-> Hn].
  exists t. repeat split; [discriminate | assumption].
Qed.


Lemma docstring_at_head (s g : pystr) :
  docstring_at s 0 g <-> match_docstring_at s = Some g.
Proof.
  split.
  - intros (pre & post & -> & Hl & Hg & Hn).
    destruct pre; [|discriminate]. now apply match_docstring_at_intro.
  - intros H. destruct (match_docstring_at_elim _ _ H) as (post & -> & Hg & Hn).
    exists [], post. auto.
Qed.

Lemma docstring_at_tail (c : codepoint) (s : pystr) (i : nat) (g : pystr) :
  docstring_at (c :: s) (S i) g <-> docstring_at s i g.
Proof.
  split.
  - intros (pre & post & E & Hl & Hg & Hn).
    destruct pre as [|c' pre]; [discriminate|].
    injection E as -> ->. injection Hl as Hl.
    exists pre, post. auto.
  - intros (pre & post & -> & Hl & Hg & Hn).
    exists (c :: pre), post. simpl. auto.
Qed.

Lemma docstring_at_nil (i : nat) (g : pystr) : ~ docstring_at [] i g.
Proof.
  intros (pre & post & E & _). destruct pre; discriminate.
Qed.

Lemma re_search_docstring_eq (s : pystr) :
  re_search_docstring s =
  match match_docstring_at s with
  | Some g => Some g
  | None => match s with [] => None | _ :: r => re_search_docstring r end
  end.
Proof. destruct s; reflexivity. Qed.

Lemma re_search_first (s : pystr) (i : nat) (g : pystr) :
  first_docstring s i g -> re_search_docstring s = Some g.
Proof.
  revert i; induction s as [|c s IH]; intros i [Hocc Hmin].
  - now apply docstring_at_nil in Hocc.
  - rewrite re_search_docstring_eq.
    destruct (match_docstring_at (c :: s)) as [g0|] eqn:E.
    + apply docstring_at_head in E. pose proof (Hmin _ _ E) as Hi.
      assert (i = 0) as -> by lia.
      apply docstring_at_head in Hocc, E. congruence.
    + destruct i as [|i].
      * apply docstring_at_head in Hocc. congruence.
      * apply (IH i). split.
        -- now apply docstring_at_tail in Hocc.
        -- intros j g' Hj. apply (docstring_at_tail c) in Hj.
           apply Hmin in Hj. lia.
Qed.

Lemma re_search_none (s : pystr) :
  (forall i g, ~ docstring_at s i g) -> re_search_docstring s = None.
Proof.
  induction s as [|c s IH]; intros H.
  - reflexivity.
  - rewrite re_search_docstring_eq.
    destruct (match_docstring_at (c :: s)) as [g0|] eqn:E.
    + apply docstring_at_head in E. now apply H in E.
    + apply IH. intros i g Hi. apply (H (S i) g).
      now apply docstring_at_tail.
Qed.

Lemma re_search_some (s g : pystr) :
  re_search_docstring s = Some g -> exists i, first_docstring s i g.
Proof.
  induction s as [|c s IH]; rewrite re_search_docstring_eq.
  - discriminate.
  - destruct (match_docstring_at (c :: s)) as [g0|] eqn:E.
    + intros H; injection H as ->. exists 0. split.
      * now apply docstring_at_head.
      * intros; lia.
    + intros H. destruct (IH H) as (i & Hocc & Hmin). exists (S i). split.
      * now apply docstring_at_tail.
      * intros [|j] g' Hj.
        -- apply docstring_at_head in Hj. congruence.
        -- apply docstring_at_tail in Hj. apply Hmin in Hj. lia.
Qed.

Lemma docstring_at_first (s : pystr) (i : nat) (g : pystr) :
  docstring_at s i g -> exists j g', first_docstring s j g'.
Proof.
  revert i; induction s as [|c s IH]; intros i Hocc.
  - now apply docstring_at_nil in Hocc.
  - destruct (match_docstring_at (c :: s)) as [g0|] eqn:E0.
    + exists 0, g0. split; [now apply docstring_at_head | intros; lia].
    + destruct i as [|i].
      * apply docstring_at_head in Hocc. congruence.
      * apply docstring_at_tail in Hocc.
        destruct (IH _ Hocc) as (j & g' & Ho & Hm).
        exists (S j), g'. split; [now apply docstring_at_tail|].
        intros [|k] g2 Hk.
        -- apply docstring_at_head in Hk. congruence.
        -- apply docstring_at_tail in Hk. apply Hm in Hk. lia.
Qed.

Lemma no_docstring_at (s : pystr) :
  re_search_docstring s = None -> forall i g, ~ docstring_at s i g.
Proof.
  intros E i g Hocc.
  destruct (docstring_at_first _ _ _ Hocc) as (j & g' & Hf).
  rewrite (re_search_first _ _ _ Hf) in E. discriminate.
Qed.

(** C3: the title is the whitespace-trimmed text of the first place in the
    source where three double quotes are followed by one or more characters
    other than a line feed and then a line feed: that text is whitespace,
    then the title, then whitespace, and the title has no whitespace at its
    ends; later such places play no part, and without any such place the
    title is the empty string. *)
Theorem extract_title_first_docstring (source_text : pystr) :
  (forall i g, first_docstring source_text i g ->
               exists ws1 ws2,
                 g = ws1 ++ extract_title_from_source source_text ++ ws2
                 /\ Forall (fun c => isspace c = true) ws1
                 /\ Forall (fun c => isspace c = true) ws2
                 /\ no_blank_ends (extract_title_from_source source_text))
  /\ ((forall i g, ~ docstring_at source_text i g) ->
      extract_title_from_source source_text = [])
  /\ ((exists i g, first_docstring source_text i g)
      \/ (forall i g, ~ docstring_at source_text i g)).
Proof.
  unfold extract_title_from_source. repeat split.
  - intros i g H. rewrite (re_search_first _ _ _ H). apply strip_trimmed.
  - intros H. now rewrite (re_search_none _ H).
  - destruct (re_search_docstring source_text) as [g|] eqn:E.
    + left. destruct (re_search_some _ _ E) as [i H]. now exists i, g.
    + right. intros i g Hocc.
      destruct (docstring_at_first _ _ _ Hocc) as (j & g' & Hf).
      rewrite (re_search_first _ _ _ Hf) in E. discriminate.
Qed.

Lemma extract_title_first_docstring_witness :
  extract_title_from_source two_docstrings = lit "First"
  /\ extract_title_from_source (lit "x = 1") = [].
Proof.
  split.
  - assert (Hfirst : first_docstring two_docstrings 6 (lit " First ")).
    { split.
      - exists (lit "x = 1" ++ [LF]),
          (TRIPLE ++ [LF] ++ TRIPLE ++ lit "Second" ++ [LF] ++ TRIPLE).
        repeat split; [discriminate | vm_compute; intuition discriminate].
      - intros j g' Hj.
        destruct j as [|[|[|[|[|[|j]]]]]]; try lia; exfalso;
          repeat apply docstring_at_tail in Hj;
          apply docstring_at_head in Hj; discriminate. }
    apply (trimmed_of_unique (lit " First ")).
    + exact (proj1 (extract_title_first_docstring two_docstrings) 6
               (lit " First ") Hfirst).
    + exists (lit " "), (lit " ").
      repeat split; try (repeat constructor);
        now apply (no_blank_endsb_ok (lit "First")).
  - apply (proj1 (proj2 (extract_title_first_docstring (lit "x = 1")))).
    now apply no_docstring_at.
Defined.

(** ** The text after the title line plays no part *)

Lemma span_line_more (a post : pystr) :
  In LF a ->
  span_line (a ++ post) = (fst (span_line a), snd (span_line a) ++ post)
  /\ exists t, snd (span_line a) = LF :: t.
Proof.
  induction a as [|c a IH]; simpl; intros H; [tauto|].
  destruct (N.eqb_spec c LF) as [->|NE].
  - split; [reflexivity | now exists a].
  - destruct H as [H|H]; [congruence|].
    destruct (IH H) as [-> [t Ht]].
    destruct (span_line a) as [g u]. simpl in *. split; [reflexivity|].
    now exists t.
Qed.

Lemma match_docstring_at_more (a post : pystr) :
  In LF (skipn 3 a) ->
  match_docstring_at (a ++ post) = match_docstring_at a.
Proof.
  destruct a as [|q1 [|q2 [|q3 r]]]; simpl; try tauto.
  intros H. destruct (_ && _); [|reflexivity].
  destruct (span_line_more r post H) as [-> [t Ht]].
  destruct (span_line r) as [g u]. simpl in *. subst u.
  destruct g; reflexivity.
Qed.

Lemma re_search_more (pre g post : pystr) :
  g <> [] -> ~ In LF g ->
  re_search_docstring (pre ++ TRIPLE ++ g ++ LF :: post)
  = re_search_docstring (pre ++ TRIPLE ++ g ++ [LF]).
Proof.
  intros Hg Hn. induction pre as [|c pre IH].
  - rewrite !app_nil_l, !re_search_docstring_eq.
    now rewrite !match_docstring_at_intro.
  - rewrite (re_search_docstring_eq ((c :: pre) ++ _)).
    rewrite (re_search_docstring_eq ((c :: pre) ++ TRIPLE ++ g ++ [LF])).
    replace ((c :: pre) ++ TRIPLE ++ g ++ LF :: post)
      with (((c :: pre) ++ TRIPLE ++ g ++ [LF]) ++ post)
      by (now rewrite <- !app_assoc).
    rewrite match_docstring_at_more.
    + destruct (match_docstring_at _); [reflexivity|].
      cbn [app]. change (DQUOTE :: DQUOTE :: DQUOTE :: g ++ [LF])
        with (TRIPLE ++ g ++ [LF]).
      rewrite <- IH. now rewrite <- !app_assoc.
    + destruct pre as [|x [|y pre]]; simpl;
        repeat (rewrite in_app_iff; simpl); tauto.
Qed.

(** A line without blanks at its ends is its own trimmed text. *)
Lemma strip_no_blank_ends (g : pystr) :
  (forall c r, g = c :: r -> isspace c = false) ->
  (forall r c, g = r ++ [c] -> isspace c = false) ->
  strip g = g.
Proof.
  intros Hfirst Hlast. unfold strip, rstrip.
  assert (El : lstrip g = g).
  { destruct g as [|c r]; [reflexivity|].
    simpl. now rewrite (Hfirst c r eq_refl). }
  rewrite El. destruct (rev g) as [|c t] eqn:E.
  - apply (f_equal (@rev codepoint)) in E. rewrite rev_involutive in E.
    now subst g.
  - apply (f_equal (@rev codepoint)) in E. rewrite rev_involutive in E.
    simpl in E. simpl. rewrite (Hlast (rev t) c E). simpl. now subst g.
Qed.

(** The claim that the function returns the line itself does not hold: the
    line of an unclosed docstring is returned without the whitespace at its
    ends. *)
Lemma title_line_counterexample :
  docstring_at padded_title_source 0 (lit "  Plot data  ")
  /\ extract_title_from_source padded_title_source = lit "Plot data"
  /\ extract_title_from_source padded_title_source <> lit "  Plot data  ".
Proof.
  split; [|split; [reflexivity | discriminate]].
  exists [], (lit "plot(x)" ++ [LF]).
  repeat split; [discriminate | vm_compute; intuition discriminate].
Qed.

(** C9, amended: when three double quotes are followed by a non-empty line
    and a line feed, the title does not depend on the text after that line
    feed, so no closing delimiter is needed: whatever follows the line, a
    closing triple quote or none, the title is that line without the
    whitespace at its ends, provided no earlier place of the source matches;
    a line without whitespace at its ends is returned as it is. *)
Theorem extract_title_needs_no_closing (pre g post : pystr) :
  g <> [] -> ~ In LF g ->
  extract_title_from_source (pre ++ TRIPLE ++ g ++ LF :: post)
  = extract_title_from_source (pre ++ TRIPLE ++ g ++ [LF])
  /\ ((forall j g', docstring_at (pre ++ TRIPLE ++ g ++ [LF]) j g' ->
                    List.length pre <= j) ->
      (exists ws1 ws2,
         g = ws1
               ++ extract_title_from_source (pre ++ TRIPLE ++ g ++ LF :: post)
               ++ ws2
         /\ Forall (fun c => isspace c = true) ws1
         /\ Forall (fun c => isspace c = true) ws2
         /\ no_blank_ends
              (extract_title_from_source (pre ++ TRIPLE ++ g ++ LF :: post)))
      /\ ((forall c r, g = c :: r -> isspace c = false) ->
          (forall r c, g = r ++ [c] -> isspace c = false) ->
          extract_title_from_source (pre ++ TRIPLE ++ g ++ LF :: post) = g)).
Proof.
  intros Hg Hn. unfold extract_title_from_source.
  rewrite re_search_more by assumption. split; [reflexivity|].
  intros Hmin.
  rewrite (re_search_first _ (List.length pre) g).
  - split; [apply strip_trimmed | apply strip_no_blank_ends].
  - split; [|exact Hmin]. exists pre, []. auto.
Qed.

Lemma extract_title_needs_no_closing_witness :
  extract_title_from_source padded_title_source = lit "Plot data".
Proof.
  assert (Hg : lit "  Plot data  " <> []) by discriminate.
  assert (Hn : ~ In LF (lit "  Plot data  "))
    by (vm_compute; intuition discriminate).
  apply (trimmed_of_unique (lit "  Plot data  ")).
  - apply (proj2 (extract_title_needs_no_closing
                    [] (lit "  Plot data  ") (lit "plot(x)" ++ [LF]) Hg Hn)).
    intros; simpl; lia.
  - exists (lit "  "), (lit "  ").
    repeat split; try (repeat constructor);
      now apply (no_blank_endsb_ok (lit "Plot data")).
Defined.

(** * Loops and joins *)

Lemma for_each_app {S A : Type} (body : S -> A -> result S)
    (xs ys : list A) (st : S) :
  for_each body (xs ++ ys) st
  = (st' <- for_each body xs st ;; for_each body ys st').
Proof.
  revert st; induction xs as [|x xs IH]; intros st; simpl.
  - reflexivity.
  - destruct (body st x) as [st'|e]; simpl; [apply IH | reflexivity].
Qed.

(** A property of the loop state that every iteration keeps holds at the
    end of the loop. *)
Lemma for_each_invariant {S A : Type} (P : S -> Prop)
    (body : S -> A -> result S) :
  (forall st x st', P st -> body st x = Ok st' -> P st') ->
  forall items st st',
    P st -> for_each body items st = Ok st' -> P st'.
Proof.
  intros Hbody items; induction items as [|x items IH]; simpl; intros st st' HP H.
  - injection H as <-. exact HP.
  - destruct (body st x) as [st1|e] eqn:E; simpl in H; [|discriminate].
    eapply IH; [|exact H]. eapply Hbody; eauto.
Qed.

Lemma str_eqb_refl (a : pystr) : str_eqb a a = true.
Proof. now apply str_eqb_eq. Qed.

Lemma str_eqb_neq (a b : pystr) : a <> b -> str_eqb a b = false.
Proof.
  intros H. destruct (str_eqb a b) eqn:E; [|reflexivity].
  apply str_eqb_eq in E. contradiction.
Qed.

Lemma join_items_strs (sep : pystr) (lines : list pystr) :
  join_items sep (map PyStr lines) = Ok (join_lines sep lines).
Proof.
  induction lines as [|s rest IH]; [reflexivity|].
  destruct rest as [|t rest]; [reflexivity|].
  change (join_items sep (map PyStr (s :: t :: rest)))
    with (u <- join_items sep (map PyStr (t :: rest)) ;; Ok (s ++ sep ++ u)).
  rewrite IH. reflexivity.
Qed.

Lemma join_lines_empty_sep (frags : list pystr) :
  join_lines [] frags = List.concat frags.
Proof.
  induction frags as [|s rest IH]; [reflexivity|].
  destruct rest as [|t rest].
  - simpl. now rewrite app_nil_r.
  - change (join_lines [] (s :: t :: rest))
      with (s ++ [] ++ join_lines [] (t :: rest)).
    rewrite IH. reflexivity.
Qed.

(** * Output normalizer *)

Lemma eq_str_lit (s : pystr) : eq_str (PyStr s) s = true.
Proof. apply str_eqb_refl. Qed.

Lemma output_body_encodes (acc : list pyval) (v : pyval) (r : OutputRecord) :
  encodes v r ->
  output_body acc v = Ok (acc ++ map PyStr (record_fragments r)).
Proof.
  intros (d & -> & H). unfold output_body, py_get. cbn [bind].
  destruct r as [t|o|tb|tag].
  - destruct H as [-> Ht]. rewrite eq_str_lit, Ht.
    destruct t; reflexivity.
  - destruct H as [-> (data & -> & Hd)].
    change (eq_str (PyStr (lit "execute_result")) (lit "stream")) with false.
    rewrite eq_str_lit. cbn [bind]. rewrite Hd.
    destruct o as [[s|l]|]; simpl; rewrite ?app_nil_r; reflexivity.
  - destruct H as [-> ->].
    change (eq_str (PyStr (lit "error")) (lit "stream")) with false.
    change (eq_str (PyStr (lit "error")) (lit "execute_result")) with false.
    rewrite eq_str_lit. cbn [bind].
    destruct tb as [|l ls].
    + simpl. now rewrite app_nil_r.
    + change (truthy (PyList (map PyStr (l :: ls)))) with true.
      unfold py_join, py_iter. cbn [bind].
      rewrite join_items_strs. reflexivity.
  - destruct H as (-> & H1 & H2 & H3). unfold eq_str.
    rewrite !str_eqb_neq by assumption. simpl. now rewrite app_nil_r.
Qed.

Lemma collect_encodes (vs : list pyval) (rs : list OutputRecord) :
  Forall2 encodes vs rs ->
  forall acc,
    for_each output_body vs acc
    = Ok (acc ++ map PyStr (flat_map record_fragments rs)).
Proof.
  induction 1 as [|v r vs rs Hv _ IH]; intros acc; simpl.
  - now rewrite app_nil_r.
  - rewrite (output_body_encodes _ _ _ Hv). cbn [bind].
    rewrite IH, map_app, app_assoc. reflexivity.
Qed.

Lemma concat_all_empty (frags : list pystr) :
  (forall f, In f frags -> f = []) -> List.concat frags = [].
Proof.
  induction frags as [|f frags IH]; simpl; intros H; [reflexivity|].
  rewrite (H f) by auto. apply IH. auto.
Qed.

Lemma sample_outputs_encode : Forall2 encodes sample_outputs sample_records.
Proof.
  repeat constructor; eexists; (split; [reflexivity|]); simpl.
  - split; reflexivity.
  - repeat split; discriminate.
  - split; [reflexivity|]. eexists. split; reflexivity.
  - split; reflexivity.
Defined.

(** The trim comes before the escape removal: blanks that an escape
    sequence shields from the trim stay in the result. *)
Example trim_before_escape_removal :
  extract_output_from_outputs
    (PyList [stream_record (PyStr ([ESC] ++ lit "[0m  hi" ++ [LF]))])
  = Ok (lit "  hi").
Proof. reflexivity. Qed.

Lemma output_body_no_type (d : list (pystr * pyval)) (acc : list pyval) :
  lookup (lit "output_type") d = None -> output_body acc (PyDict d) = Ok acc.
Proof.
  intros H. unfold output_body, py_get. cbn [bind]. rewrite H. reflexivity.
Qed.

(** C10: a record without the key output_type takes none of the three
    branches: it leaves the buffer of fragments as it is and raises nothing,
    so the output text is the one of the sequence without that record. *)
Theorem record_without_output_type_skipped
    (d : list (pystr * pyval)) (pre post : list pyval) :
  lookup (lit "output_type") d = None ->
  (forall acc, output_body acc (PyDict d) = Ok acc)
  /\ collect_output_texts (PyList (pre ++ PyDict d :: post))
     = collect_output_texts (PyList (pre ++ post))
  /\ extract_output_from_outputs (PyList (pre ++ PyDict d :: post))
     = extract_output_from_outputs (PyList (pre ++ post)).
Proof.
  intros H.
  assert (E : collect_output_texts (PyList (pre ++ PyDict d :: post))
              = collect_output_texts (PyList (pre ++ post))).
  { unfold collect_output_texts, py_iter. cbn [bind].
    rewrite !for_each_app.
    destruct (for_each output_body pre []) as [acc|e]; [|reflexivity].
    cbn [bind for_each]. now rewrite output_body_no_type. }
  repeat split.
  - intros acc. now apply output_body_no_type.
  - exact E.
  - unfold extract_output_from_outputs. now rewrite E.
Qed.

Lemma record_without_output_type_skipped_witness :
  extract_output_from_outputs
    (PyList [stream_record (PyStr (lit "x"));
             PyDict [(lit "text", PyStr (lit "lost"))];
             stream_record (PyStr (lit "y"))])
  = Ok (lit "xy").
Proof.
  apply (eq_trans (proj2 (proj2 (record_without_output_type_skipped
             [(lit "text", PyStr (lit "lost"))]
             [stream_record (PyStr (lit "x"))]
             [stream_record (PyStr (lit "y"))] eq_refl)))).
  reflexivity.
Defined.

(** C5: the cell of the scenario gives the two traceback lines with a line
    feed between them as its output; in general an error record whose
    traceback is a non-empty list of lines appends one fragment, the lines
    joined with line feeds. *)
Theorem error_traceback_joined :
  parse_notebook (notebook_of [traceback_cell])
  = Ok [{| title := lit "Compute Sum";
           output := lit "Traceback (most recent call last):" ++ [LF]
                       ++ lit "ValueError: bad" |}]
  /\ forall d lines acc,
       lookup (lit "output_type") d = Some (PyStr (lit "error")) ->
       lookup (lit "traceback") d = Some (PyList (map PyStr lines)) ->
       lines <> [] ->
       output_body acc (PyDict d)
       = Ok (acc ++ [PyStr (join_lines [LF] lines)]).
Proof.
  split; [reflexivity|].
  intros d lines acc Ht Htb Hne.
  rewrite (output_body_encodes acc (PyDict d) (Error lines)).
  - destruct lines; [congruence | reflexivity].
  - exists d. auto.
Qed.

Lemma error_traceback_joined_witness :
  output_body [PyStr (lit "out")]
    (error_record (PyList (map PyStr [lit "E1"; lit "E2"])))
  = Ok [PyStr (lit "out"); PyStr (lit "E1" ++ [LF] ++ lit "E2")].
Proof.
  apply (proj2 error_traceback_joined
           [(lit "output_type", PyStr (lit "error"));
            (lit "traceback", PyList (map PyStr [lit "E1"; lit "E2"]))]
           [lit "E1"; lit "E2"] [PyStr (lit "out")]);
    [reflexivity | reflexivity | discriminate].
Defined.

(** * Cell and document extractor *)

Lemma nonempty_true {A : Type} (l : list A) : nonempty l = true -> l <> [].
Proof. destruct l; [discriminate | discriminate]. Qed.

Lemma cell_body_keeps_ok (results : list entry) (cell : pyval)
    (results' : list entry) :
  Forall entry_ok results -> cell_body results cell = Ok results' ->
  Forall entry_ok results'.
Proof.
  intros HP H. unfold cell_body in H. step_binds H;
    try (injection H as <-; exact HP).
  injection H as <-. apply Forall_app. split; [exact HP|].
  apply andb_true_iff in B1. destruct B1 as [Bt Bo].
  constructor; [|constructor].
  split; simpl; now apply nonempty_true.
Qed.

Lemma parse_notebook_entries_ok (notebook : pyval) (results : list entry) :
  parse_notebook notebook = Ok results -> Forall entry_ok results.
Proof.
  unfold parse_notebook. intros H. step_binds H.
  apply (for_each_invariant (Forall entry_ok) cell_body cell_body_keeps_ok
           _ _ _ (Forall_nil _) H).
Qed.

(** C2: in every result that the extraction returns, every entry has a
    non-empty title and a non-empty output. *)
Theorem parse_notebook_entries_nonempty
    (notebook : pyval) (results : list entry) :
  parse_notebook notebook = Ok results ->
  Forall (fun e => title e <> [] /\ output e <> []) results.
Proof.
  unfold parse_notebook, py_get. intros H.
  destruct notebook as [| | | | | |d]; try discriminate H. cbn [bind] in H.
  destruct (py_iter _) as [items|e] eqn:Hiter; cbn [bind] in H;
    [|discriminate H].
  clear Hiter. revert H.
  generalize (@nil entry) at 1, (Forall_nil entry_ok).
  induction items as [|cell items IH]; intros acc Hacc H.
  - injection H as <-. exact Hacc.
  - cbn [for_each] in H.
    destruct (cell_body acc cell) as [acc'|e] eqn:Hcell; cbn [bind] in H;
      [|discriminate H].
    exact (IH acc' (cell_body_keeps_ok _ _ _ Hacc Hcell) H).
Qed.

Lemma parse_notebook_entries_nonempty_witness :
  Forall (fun e => title e <> [] /\ output e <> [])
    [{| title := lit "Compute Sum"; output := lit "2" |}].
Proof.
  exact (parse_notebook_entries_nonempty mixed_notebook _ eq_refl).
Defined.

(** The same holds for the call on a path, whatever the decoder. *)
Corollary parse_jupyter_notebook_entries_nonempty
    (json_load : list N -> result pyval) (w : world) (notebook_path : pystr)
    (results : list entry) :
  fst (parse_jupyter_notebook json_load w notebook_path) = Ok results ->
  Forall entry_ok results.
Proof.
  unfold parse_jupyter_notebook.
  destruct (files w notebook_path) as [bytes|]; simpl; [|discriminate].
  destruct (json_load bytes) as [notebook|e]; simpl; [|discriminate].
  apply parse_notebook_entries_ok.
Qed.

(** The claim that a document without cells makes the call fail does not
    hold: the empty object is such a document and the call returns the empty
    list. *)
Lemma no_cells_counterexample :
  lookup (lit "cells") [] = None
  /\ parse_notebook (PyDict []) = Ok []
  /\ parse_jupyter_notebook sample_json_load sample_world (lit "empty.ipynb")
     = (Ok [], sample_world)
  /\ ~ (forall d, lookup (lit "cells") d = None ->
                  exists e, parse_notebook (PyDict d) = Raise e).
Proof.
  repeat split. intros H. destruct (H [] eq_refl) as [e He]. discriminate.
Qed.

(** C1, amended: a document that is a JSON object without the key cells
    gives the empty result and no error, on the decoded document and on the
    call that reads it from a file; the file is left as it was. *)
Theorem parse_notebook_without_cells
    (json_load : list N -> result pyval) (w : world) (notebook_path : pystr)
    (bytes : list N) (d : list (pystr * pyval)) :
  files w notebook_path = Some bytes ->
  json_load bytes = Ok (PyDict d) ->
  lookup (lit "cells") d = None ->
  parse_notebook (PyDict d) = Ok []
  /\ parse_jupyter_notebook json_load w notebook_path = (Ok [], w).
Proof.
  intros Hf Hj Hc.
  assert (E : parse_notebook (PyDict d) = Ok []).
  { unfold parse_notebook, py_get. cbn [bind]. rewrite Hc. reflexivity. }
  split; [exact E|].
  unfold parse_jupyter_notebook. rewrite Hf, Hj. cbn [bind]. now rewrite E.
Qed.

Lemma parse_notebook_without_cells_witness :
  parse_notebook (PyDict []) = Ok []
  /\ parse_jupyter_notebook sample_json_load sample_world (lit "empty.ipynb")
     = (Ok [], sample_world).
Proof.
  exact (parse_notebook_without_cells sample_json_load sample_world
           (lit "empty.ipynb") (lit "{}") [] eq_refl eq_refl eq_refl).
Defined.

(** A top-level value that is not an object has no method [get]. *)
Lemma parse_notebook_not_object (notebook : pyval) :
  (forall d, notebook <> PyDict d) ->
  parse_notebook notebook = Raise AttributeError.
Proof.
  intros H. destruct notebook; try reflexivity. now destruct (H d).
Qed.

(** C7: the call reads its file and changes nothing, so a second call on
    the world the first one leaves returns the same result, entries in the
    same order; and the result depends on the world only through the
    content of the file at the given path. *)
Theorem parse_jupyter_notebook_deterministic
    (json_load : list N -> result pyval) (w : world) (notebook_path : pystr) :
  (let (r1, w1) := parse_jupyter_notebook json_load w notebook_path in
   let (r2, w2) := parse_jupyter_notebook json_load w1 notebook_path in
   r1 = r2 /\ w1 = w /\ w2 = w)
  /\ forall w',
       files w' notebook_path = files w notebook_path ->
       fst (parse_jupyter_notebook json_load w' notebook_path)
       = fst (parse_jupyter_notebook json_load w notebook_path).
Proof.
  split.
  - unfold parse_jupyter_notebook.
    destruct (files w notebook_path) as [bytes|] eqn:E; rewrite E; auto.
  - intros w' H. unfold parse_jupyter_notebook. rewrite H.
    destruct (files w notebook_path); reflexivity.
Qed.

Lemma parse_jupyter_notebook_deterministic_witness :
  fst (parse_jupyter_notebook sample_json_load other_world (lit "empty.ipynb"))
  = fst (parse_jupyter_notebook sample_json_load sample_world
           (lit "empty.ipynb")).
Proof.
  exact (proj2 (parse_jupyter_notebook_deterministic
                  sample_json_load sample_world (lit "empty.ipynb"))
           other_world eq_refl).
Defined.

(** ** Cells whose docstring starts with a blank line *)

Lemma cell_body_empty_title
    (d : list (pystr * pyval)) (s : pystr) (results : list entry) :
  lookup (lit "cell_type") d = Some (PyStr (lit "code")) ->
  source_of d s -> s <> [] -> extract_title_from_source s = [] ->
  cell_body results (PyDict d)
  = (_ <- extract_output_from_outputs (outputs_of d) ;; Ok results).
Proof.
  intros Hct Hsrc Hne Ht. unfold cell_body, py_get, outputs_of. cbn [bind].
  rewrite Hct, eq_str_lit. cbn [negb].
  destruct Hsrc as [Hs | (frags & Hs & Hc)]; rewrite Hs.
  - destruct s as [|c s]; [congruence|]. cbn [truthy nonempty negb bind].
    unfold call_extract_title. cbn [bind]. rewrite Ht.
    destruct (extract_output_from_outputs _); reflexivity.
  - destruct frags as [|f frags]; [simpl in Hc; congruence|].
    cbn [truthy nonempty negb map]. unfold py_join, py_iter. cbn [bind].
    change (PyStr f :: map PyStr frags) with (map PyStr (f :: frags)).
    rewrite join_items_strs, join_lines_empty_sep, Hc. cbn [bind].
    unfold call_extract_title. cbn [bind]. rewrite Ht.
    destruct (extract_output_from_outputs _); reflexivity.
Qed.

Lemma parse_notebook_of (cells : list pyval) :
  parse_notebook (notebook_of cells) = for_each cell_body cells [].
Proof. reflexivity. Qed.

(** A cell whose iteration leaves [results] as it is can be dropped from a
    run that succeeds. *)
Lemma for_each_drop_cell (cell : pyval) (x : result unit)
    (pre post : list pyval) (st res : list entry) :
  (forall results, cell_body results cell = (_ <- x ;; Ok results)) ->
  for_each cell_body (pre ++ cell :: post) st = Ok res ->
  for_each cell_body (pre ++ post) st = Ok res.
Proof.
  intros Hcell. rewrite !for_each_app.
  destruct (for_each cell_body pre st) as [st1|e]; cbn [bind for_each];
    [|discriminate].
  rewrite Hcell. destruct x as [[]|e]; cbn [bind]; [auto | discriminate].
Qed.

(** The claim that a docstring with a blank first line always gives an
    empty title does not hold when the triple quote is followed at once by
    the line feed: the pattern does not match there and the search goes on
    to a later triple quote. *)
Lemma blank_first_line_counterexample :
  (exists rest, blank_first_line_source = TRIPLE ++ [] ++ LF :: rest)
  /\ extract_title_from_source blank_first_line_source = lit "hello"
  /\ parse_notebook
       (notebook_of
          [code_cell (PyStr blank_first_line_source)
             (PyList [stream_record (PyStr (lit "hello" ++ [LF]))])])
     = Ok [{| title := lit "hello"; output := lit "hello" |}].
Proof.
  repeat split. eexists. reflexivity.
Qed.

(** What the loop does with a code cell whose source text is [s]. *)
Lemma cell_body_code
    (d : list (pystr * pyval)) (s : pystr) (results : list entry) :
  lookup (lit "cell_type") d = Some (PyStr (lit "code")) ->
  source_of d s -> s <> [] ->
  cell_body results (PyDict d)
  = (output_text <- extract_output_from_outputs (outputs_of d) ;;
     if nonempty (extract_title_from_source s) && nonempty output_text
     then Ok (results ++ [{| title := extract_title_from_source s;
                             output := output_text |}])
     else Ok results).
Proof.
  intros Hct Hsrc Hne. unfold cell_body, py_get, outputs_of. cbn [bind].
  rewrite Hct, eq_str_lit. cbn [negb].
  destruct Hsrc as [Hs | (frags & Hs & Hc)]; rewrite Hs.
  - destruct s as [|c s]; [congruence|]. reflexivity.
  - destruct frags as [|f frags]; [simpl in Hc; congruence|].
    cbn [truthy nonempty negb map]. unfold py_join, py_iter. cbn [bind].
    change (PyStr f :: map PyStr frags) with (map PyStr (f :: frags)).
    rewrite join_items_strs, join_lines_empty_sep, Hc. reflexivity.
Qed.

(** C4, amended: when the triple quote at the start of the source is
    followed by one or more blanks other than a line feed and then a line
    feed, the title is empty and the cell adds no entry, so a successful
    extraction returns what it returns without the cell; when the triple
    quote is followed at once by a line feed, the title is the one found in
    the text after that line feed, and the cell adds no entry exactly when
    that title or its output is empty: with both non-empty it adds the
    entry with that title. *)
Theorem blank_first_line_docstring (rest : pystr) :
  (forall ws,
     ws <> [] -> Forall (fun c => isspace c = true /\ c <> LF) ws ->
     extract_title_from_source (TRIPLE ++ ws ++ LF :: rest) = []
     /\ forall d,
          lookup (lit "cell_type") d = Some (PyStr (lit "code")) ->
          source_of d (TRIPLE ++ ws ++ LF :: rest) ->
          (forall results,
             cell_body results (PyDict d)
             = (_ <- extract_output_from_outputs (outputs_of d) ;;
                Ok results))
          /\ forall pre post res,
               parse_notebook (notebook_of (pre ++ PyDict d :: post)) = Ok res ->
               parse_notebook (notebook_of (pre ++ post)) = Ok res)
  /\ extract_title_from_source (TRIPLE ++ LF :: rest)
     = extract_title_from_source rest
  /\ forall d,
       lookup (lit "cell_type") d = Some (PyStr (lit "code")) ->
       source_of d (TRIPLE ++ LF :: rest) ->
       forall results,
         cell_body results (PyDict d)
         = (output_text <- extract_output_from_outputs (outputs_of d) ;;
            if nonempty (extract_title_from_source rest)
               && nonempty output_text
            then Ok (results ++ [{| title := extract_title_from_source rest;
                                    output := output_text |}])
            else Ok results).
Proof.
  assert (Hlater : extract_title_from_source (TRIPLE ++ LF :: rest)
                   = extract_title_from_source rest).
  { unfold extract_title_from_source.
    destruct rest as [|a [|b r]]; reflexivity. }
  split; [|split; [exact Hlater|]].
  - intros ws Hne Hws.
    assert (Hsp : Forall (fun c => isspace c = true) ws)
      by (eapply Forall_impl; [|exact Hws]; simpl; tauto).
    assert (Hlf : ~ In LF ws).
    { intros Hin. rewrite Forall_forall in Hws.
      destruct (Hws _ Hin) as [_ F]. now apply F. }
    assert (Ht : extract_title_from_source (TRIPLE ++ ws ++ LF :: rest) = []).
    { unfold extract_title_from_source.
      rewrite re_search_docstring_eq, match_docstring_at_intro by assumption.
      now apply strip_spaces. }
    split; [exact Ht|].
    intros d Hct Hsrc.
    assert (Hcell : forall results,
               cell_body results (PyDict d)
               = (_ <- extract_output_from_outputs (outputs_of d) ;;
                  Ok results)).
    { intros results.
      apply (cell_body_empty_title d _ results Hct Hsrc); [discriminate|].
      exact Ht. }
    split; [exact Hcell|].
    intros pre post res. rewrite !parse_notebook_of.
    apply (for_each_drop_cell (PyDict d)
             (_ <- extract_output_from_outputs (outputs_of d) ;; Ok tt)).
    intros results. rewrite Hcell.
    destruct (extract_output_from_outputs (outputs_of d)); reflexivity.
  - intros d Hct Hsrc results.
    rewrite (cell_body_code d _ results Hct Hsrc) by discriminate.
    now rewrite Hlater.
Qed.

Lemma blank_first_line_docstring_witness :
  extract_title_from_source
    (TRIPLE ++ lit "  " ++ LF :: lit "Doc" ++ [LF] ++ TRIPLE) = [].
Proof.
  apply (proj1 (blank_first_line_docstring (lit "Doc" ++ [LF] ++ TRIPLE))
           (lit "  ")).
  - discriminate.
  - repeat constructor; discriminate.
Defined.

(** * Default output path *)

Lemma is_prefix_app (p s : pystr) : is_prefix p (p ++ s) = true.
Proof.
  induction p as [|x p IH]; simpl; [reflexivity|].
  now rewrite N.eqb_refl, IH.
Qed.

Lemma is_prefix_elim (p s : pystr) :
  is_prefix p s = true -> exists t, s = p ++ t.
Proof.
  revert s; induction p as [|x p IH]; intros s; simpl.
  - intros _. now exists s.
  - destruct s as [|y s]; [discriminate|].
    rewrite andb_true_iff, N.eqb_eq. intros [-> H].
    destruct (IH _ H) as [t ->]. now exists t.
Qed.

Lemma replace_from_skip_all (old new r : pystr) :
  replace_from old new (List.length r) r = [].
Proof. induction r as [|c r IH]; simpl; [reflexivity | exact IH]. Qed.

(** When the ending is the only place where [old] stands in the string,
    the replacement swaps the ending and keeps the rest. *)
Lemma str_replace_only_ending (stem old new : pystr) :
  old <> [] ->
  (forall pre post, stem ++ old = pre ++ old ++ post -> pre = stem) ->
  str_replace (stem ++ old) old new = stem ++ new.
Proof.
  intros Hold. unfold str_replace.
  induction stem as [|c stem IH]; intros Honly.
  - destruct old as [|x old]; [congruence|].
    assert (E : is_prefix (x :: old) (x :: old) = true).
    { rewrite <- (app_nil_r (x :: old)) at 2. apply is_prefix_app. }
    cbn [app replace_from]. rewrite E.
    cbn [List.length pred]. now rewrite replace_from_skip_all, app_nil_r.
  - cbn [app replace_from].
    destruct (is_prefix old (c :: stem ++ old)) eqn:E.
    + destruct (is_prefix_elim _ _ E) as [t Ht].
      specialize (Honly [] t Ht). discriminate.
    + f_equal. apply IH. intros pre post H.
      specialize (Honly (c :: pre) post). cbn [app] in Honly.
      rewrite H in Honly. specialize (Honly eq_refl). now injection Honly.
Qed.

Lemma default_output_path_only_ending (stem : pystr) :
  (forall pre post,
     stem ++ lit ".ipynb" = pre ++ lit ".ipynb" ++ post -> pre = stem) ->
  save_parsed_results_output_path (stem ++ lit ".ipynb") None
  = stem ++ lit "_parsed.json".
Proof.
  intros H. apply str_replace_only_ending; [discriminate | exact H].
Qed.

(** C8: for a notebook in the checkpoint directory the default output path
    is not the notebook path with its ending replaced: the same text in the
    directory name is replaced as well. *)
Theorem default_output_path_checkpoint_directory :
  save_parsed_results_output_path (lit ".ipynb_checkpoints/nb.ipynb") None
  = lit "_parsed.json_checkpoints/nb_parsed.json"
  /\ save_parsed_results_output_path (lit ".ipynb_checkpoints/nb.ipynb") None
     <> lit ".ipynb_checkpoints/nb" ++ lit "_parsed.json".
Proof.
  split; [reflexivity | discriminate].
Qed.

(** * Further properties of the title extractor *)

(** X1: whatever the source, the title holds no line feed and no blank at
    either end. *)
Theorem title_is_one_trimmed_line (source_text : pystr) :
  ~ In LF (extract_title_from_source source_text)
  /\ no_blank_ends (extract_title_from_source source_text).
Proof.
  unfold extract_title_from_source.
  destruct (re_search_docstring source_text) as [g|] eqn:E.
  - split; [|apply strip_ends].
    destruct (re_search_some _ _ E) as (i & (pre & post & _ & _ & _ & Hn) & _).
    intros Hin. apply Hn.
    destruct (strip_split g) as (a & b & Eg). rewrite Eg.
    rewrite !in_app_iff. auto.
  - split; [intros [] |]. split; intros.
    + discriminate.
    + now destruct r.
Qed.

(** X2: the title is a contiguous piece of the source text. *)
Theorem title_is_piece_of_source (source_text : pystr) :
  exists pre post,
    source_text = pre ++ extract_title_from_source source_text ++ post.
Proof.
  unfold extract_title_from_source.
  destruct (re_search_docstring source_text) as [g|] eqn:E.
  - destruct (re_search_some _ _ E) as (i & (pre & post & Es & _) & _).
    destruct (strip_split g) as (a & b & Eg).
    exists (pre ++ TRIPLE ++ a), (b ++ LF :: post).
    rewrite Es. rewrite Eg at 1. now rewrite <- !app_assoc.
  - now exists [], source_text.
Qed.

(** * Further properties of the output normalizer *)

Lemma sub_ansi_no_escape (s : pystr) : ~ In ESC s -> sub_ansi 0 s = s.
Proof.
  induction s as [|c s IH]; intros H; [reflexivity|].
  assert (Hc : N.eqb c ESC = false).
  { apply N.eqb_neq. intros ->. apply H. now left. }
  cbn [sub_ansi]. unfold match_ansi_at.
  destruct s as [|b r].
  - reflexivity.
  - rewrite Hc. cbn [andb]. f_equal. apply IH. intros Hin. apply H. now right.
Qed.

Lemma join_items_cons (sep s : pystr) (x : pyval) (rest : list pyval) :
  join_items sep (PyStr s :: x :: rest)
  = (t <- join_items sep (x :: rest) ;; Ok (s ++ sep ++ t)).
Proof. reflexivity. Qed.

Lemma join_items_app (xs ys : list pyval) :
  join_items [] (xs ++ ys)
  = (a <- join_items [] xs ;; b <- join_items [] ys ;; Ok (a ++ b)).
Proof.
  induction xs as [|x xs IH].
  - simpl. destruct (join_items [] ys); reflexivity.
  - destruct x as [| | | |s| |]; try reflexivity.
    destruct xs as [|x' xs].
    + destruct ys as [|y ys].
      * simpl. now rewrite app_nil_r.
      * cbn [app]. rewrite join_items_cons. cbn [bind join_items].
        destruct (join_items [] (y :: ys)); reflexivity.
    + change ((PyStr s :: x' :: xs) ++ ys)
        with (PyStr s :: x' :: (xs ++ ys)).
      rewrite !join_items_cons.
      change (x' :: xs ++ ys) with ((x' :: xs) ++ ys). rewrite IH.
      destruct (join_items [] (x' :: xs)) as [a|e]; cbn [bind];
        [|reflexivity].
      destruct (join_items [] ys) as [b|e]; cbn [bind]; [|reflexivity].
      now rewrite <- !app_assoc.
Qed.

Lemma join_items_not_str (sep : pystr) (items : list pyval) :
  existsb (fun v => negb (is_pystr v)) items = true ->
  join_items sep items = Raise TypeError.
Proof.
  induction items as [|x items IH]; [discriminate|].
  destruct x as [| | | |s| |]; try reflexivity.
  cbn [existsb is_pystr negb orb]. intros H.
  destruct items as [|y items]; [discriminate|].
  rewrite join_items_cons, (IH H). reflexivity.
Qed.

(** A loop body that only appends to its state can be run from the empty
    state and its yield appended afterwards. *)
Lemma for_each_appender {A B : Type}
    (body : list B -> A -> result (list B)) :
  (forall acc x, body acc x = (r <- body [] x ;; Ok (acc ++ r))) ->
  forall xs acc,
    for_each body xs acc = (r <- for_each body xs [] ;; Ok (acc ++ r)).
Proof.
  intros Hbody xs. induction xs as [|x xs IH]; intros acc; cbn [for_each bind].
  - now rewrite app_nil_r.
  - rewrite (Hbody acc x). destruct (body [] x) as [f|e] eqn:E.
    + cbn [bind app]. rewrite (IH (acc ++ f)), (IH f).
      destruct (for_each body xs []) as [g|e]; cbn [bind]; [|reflexivity].
      now rewrite app_assoc.
    + reflexivity.
Qed.

Lemma for_each_concat {A B : Type}
    (body : list B -> A -> result (list B)) :
  (forall acc x, body acc x = (r <- body [] x ;; Ok (acc ++ r))) ->
  forall xs ys,
    for_each body (xs ++ ys) []
    = (a <- for_each body xs [] ;; b <- for_each body ys [] ;; Ok (a ++ b)).
Proof.
  intros Hbody xs ys. rewrite for_each_app.
  destruct (for_each body xs []) as [a|e]; cbn [bind]; [|reflexivity].
  apply (for_each_appender body Hbody).
Qed.

Lemma output_body_appends (acc : list pyval) (v : pyval) :
  output_body acc v = (r <- output_body [] v ;; Ok (acc ++ r)).
Proof.
  unfold output_body.
  destruct (py_get v (lit "output_type") (PyStr [])) as [ot|e]; cbn [bind];
    [|reflexivity].
  destruct (eq_str ot (lit "stream")).
  { destruct (py_get v (lit "text") (PyList [])) as [t|e]; cbn [bind];
      [|reflexivity].
    destruct t; reflexivity. }
  destruct (eq_str ot (lit "execute_result")).
  { destruct (py_get v (lit "data") (PyDict [])) as [dt|e]; cbn [bind];
      [|reflexivity].
    destruct (py_get dt (lit "text/plain") (PyList [])) as [t|e]; cbn [bind];
      [|reflexivity].
    destruct t; reflexivity. }
  destruct (eq_str ot (lit "error")).
  { destruct (py_get v (lit "traceback") (PyList [])) as [t|e]; cbn [bind];
      [|reflexivity].
    destruct (truthy t); cbn [bind app]; [|now rewrite app_nil_r].
    destruct (py_join [LF] t); reflexivity. }
  cbn [bind app]. now rewrite app_nil_r.
Qed.

Lemma collect_around (pre post : list pyval) (v : pyval) :
  collect_output_texts (PyList (pre ++ v :: post))
  = (a <- collect_output_texts (PyList pre) ;;
     m <- output_body [] v ;;
     b <- collect_output_texts (PyList post) ;;
     Ok (a ++ m ++ b)).
Proof.
  unfold collect_output_texts, py_iter. cbn [bind].
  rewrite (for_each_concat output_body output_body_appends).
  destruct (for_each output_body pre []) as [a|e]; cbn [bind]; [|reflexivity].
  change (v :: post) with ([v] ++ post).
  rewrite (for_each_concat output_body output_body_appends).
  cbn [for_each bind].
  destruct (output_body [] v) as [m|e]; cbn [bind]; [|reflexivity].
  destruct (for_each output_body post []) as [b|e]; reflexivity.
Qed.

Lemma extract_output_encodes (vs : list pyval) (rs : list OutputRecord) :
  Forall2 encodes vs rs ->
  extract_output_from_outputs (PyList vs) = Ok (spec_extract_output rs).
Proof.
  intros H. unfold extract_output_from_outputs, collect_output_texts, py_iter.
  cbn [bind]. rewrite (collect_encodes _ _ H). cbn [bind app].
  now rewrite join_items_strs, join_lines_empty_sep.
Qed.

(** X3: a record can be replaced by any record whose fragments concatenate
    to the same text, wherever it stands among the outputs; so a text given
    as a list of strings and the same text given as one string yield the
    same output. *)
Theorem record_text_shape_irrelevant
    (v1 v2 : pyval) (r1 r2 : OutputRecord) (pre post : list pyval) :
  encodes v1 r1 -> encodes v2 r2 ->
  List.concat (record_fragments r1) = List.concat (record_fragments r2) ->
  extract_output_from_outputs (PyList (pre ++ v1 :: post))
  = extract_output_from_outputs (PyList (pre ++ v2 :: post)).
Proof.
  intros H1 H2 Heq. unfold extract_output_from_outputs.
  rewrite !collect_around.
  destruct (collect_output_texts (PyList pre)) as [a|e]; cbn [bind];
    [|reflexivity].
  rewrite (output_body_encodes [] v1 r1 H1), (output_body_encodes [] v2 r2 H2).
  cbn [bind app].
  destruct (collect_output_texts (PyList post)) as [b|e]; cbn [bind];
    [|reflexivity].
  rewrite !join_items_app, !join_items_strs, !join_lines_empty_sep, Heq.
  reflexivity.
Qed.

Lemma record_text_shape_irrelevant_witness :
  extract_output_from_outputs
    (PyList [stream_record (PyStr (lit "x"));
             stream_record (PyList [PyStr (lit "a"); PyStr (lit "b")])])
  = extract_output_from_outputs
      (PyList [stream_record (PyStr (lit "x"));
               execute_result_record (PyStr (lit "ab"))]).
Proof.
  apply (record_text_shape_irrelevant
           (stream_record (PyList [PyStr (lit "a"); PyStr (lit "b")]))
           (execute_result_record (PyStr (lit "ab")))
           (Stream (Lines [lit "a"; lit "b"]))
           (ExecuteResult (Some (Scalar (lit "ab"))))
           [stream_record (PyStr (lit "x"))] []).
  - eexists. split; [reflexivity|]. split; reflexivity.
  - eexists. split; [reflexivity|]. split; [reflexivity|].
    eexists. split; reflexivity.
  - reflexivity.
Defined.

(** X4: when no fragment holds the escape character, the output is the
    concatenation of the fragments without the whitespace at its two ends:
    the concatenation is whitespace, then the output, then whitespace, and
    the output has no whitespace at its ends. *)
Theorem output_without_escape_is_trimmed_text
    (vs : list pyval) (rs : list OutputRecord) :
  Forall2 encodes vs rs ->
  ~ In ESC (List.concat (flat_map record_fragments rs)) ->
  exists out ws1 ws2,
    extract_output_from_outputs (PyList vs) = Ok out
    /\ List.concat (flat_map record_fragments rs) = ws1 ++ out ++ ws2
    /\ Forall (fun c => isspace c = true) ws1
    /\ Forall (fun c => isspace c = true) ws2
    /\ no_blank_ends out.
Proof.
  intros H Hesc.
  destruct (strip_trimmed (List.concat (flat_map record_fragments rs)))
    as (a & b & E & Ha & Hb & Hends).
  exists (strip (List.concat (flat_map record_fragments rs))), a, b.
  repeat split; try assumption; try apply Hends.
  rewrite (extract_output_encodes _ _ H). unfold spec_extract_output.
  unfold remove_ansi_codes. rewrite sub_ansi_no_escape; [reflexivity|].
  intros Hin. apply Hesc. rewrite E, !in_app_iff. auto.
Qed.

Lemma padded_outputs_encode : Forall2 encodes padded_outputs padded_records.
Proof.
  repeat constructor; eexists; (split; [reflexivity|]); split; reflexivity.
Defined.

Lemma output_without_escape_is_trimmed_text_witness :
  extract_output_from_outputs (PyList padded_outputs)
  = Ok (lit "a" ++ [LF] ++ lit "b").
Proof.
  destruct (output_without_escape_is_trimmed_text
              padded_outputs padded_records padded_outputs_encode)
    as (out & ws1 & ws2 & E & Ec & H1 & H2 & Hends).
  - vm_compute. intuition discriminate.
  - rewrite E. f_equal.
    apply (trimmed_of_unique
             (List.concat (flat_map record_fragments padded_records))).
    + exists ws1, ws2. auto.
    + exists (lit "  "), (lit " " ++ [LF]).
      repeat split; try (repeat constructor);
        now apply (no_blank_endsb_ok (lit "a" ++ [LF] ++ lit "b")).
Defined.

(** X5: a stream record whose text is neither a string nor a list makes the
    call raise TypeError when the records around it are collected without
    error: the value is appended as it is and the final join rejects it. *)
Theorem stream_text_not_string_raises
    (d : list (pystr * pyval)) (t : pyval) (pre post a b : list pyval) :
  lookup (lit "output_type") d = Some (PyStr (lit "stream")) ->
  lookup (lit "text") d = Some t ->
  is_pystr t = false -> (forall l, t <> PyList l) ->
  collect_output_texts (PyList pre) = Ok a ->
  collect_output_texts (PyList post) = Ok b ->
  extract_output_from_outputs (PyList (pre ++ PyDict d :: post))
  = Raise TypeError.
Proof.
  intros Hot Ht Hs Hl Ha Hb. unfold extract_output_from_outputs.
  rewrite collect_around, Ha, Hb. cbn [bind].
  assert (E : output_body [] (PyDict d) = Ok [t]).
  { unfold output_body, py_get. cbn [bind]. rewrite Hot, eq_str_lit, Ht.
    destruct t; try reflexivity. now destruct (Hl l). }
  rewrite E. cbn [bind]. rewrite join_items_not_str; [reflexivity|].
  rewrite existsb_app. cbn [app existsb]. rewrite Hs. cbn [negb orb].
  apply orb_true_r.
Qed.

Lemma stream_text_not_string_raises_witness :
  extract_output_from_outputs
    (PyList [stream_record (PyStr (lit "x")); stream_record PyNone])
  = Raise TypeError.
Proof.
  apply (stream_text_not_string_raises
           [(lit "output_type", PyStr (lit "stream")); (lit "text", PyNone)]
           PyNone [stream_record (PyStr (lit "x"))] []
           [PyStr (lit "x")] []);
    try reflexivity.
  intros l. discriminate.
Defined.

(** X6: an element of the outputs that is not an object makes the call
    raise AttributeError when the records before it are collected without
    error, whatever comes after it. *)
Theorem output_not_object_raises
    (v : pyval) (pre post a : list pyval) :
  (forall d, v <> PyDict d) ->
  collect_output_texts (PyList pre) = Ok a ->
  extract_output_from_outputs (PyList (pre ++ v :: post))
  = Raise AttributeError.
Proof.
  intros Hv Ha. unfold extract_output_from_outputs.
  rewrite collect_around, Ha. cbn [bind].
  destruct v; try reflexivity. now destruct (Hv d).
Qed.

Lemma output_not_object_raises_witness :
  extract_output_from_outputs
    (PyList [stream_record (PyStr (lit "x")); PyStr (lit "stream");
             stream_record PyNone])
  = Raise AttributeError.
Proof.
  apply (output_not_object_raises (PyStr (lit "stream"))
           [stream_record (PyStr (lit "x"))] [stream_record PyNone]
           [PyStr (lit "x")]).
  - intros d. discriminate.
  - reflexivity.
Defined.

(** * Further properties of the document extractor *)

Lemma parse_notebook_cells (notebook : pyval) (cells : list pyval) :
  notebook_cells notebook cells ->
  parse_notebook notebook = for_each cell_body cells [].
Proof.
  intros (d & -> & H). unfold parse_notebook, py_get. cbn [bind].
  now rewrite H.
Qed.

Lemma cell_body_appends (acc : list entry) (cell : pyval) :
  cell_body acc cell = (r <- cell_body [] cell ;; Ok (acc ++ r)).
Proof.
  unfold cell_body.
  destruct (py_get cell (lit "cell_type") PyNone) as [ct|e]; cbn [bind];
    [|reflexivity].
  destruct (negb (eq_str ct (lit "code"))); cbn [bind app];
    [now rewrite app_nil_r|].
  destruct (py_get cell (lit "source") (PyList [])) as [src|e]; cbn [bind];
    [|reflexivity].
  destruct (negb (truthy src)); cbn [bind app]; [now rewrite app_nil_r|].
  destruct (match src with
            | PyList _ => s <- py_join [] src ;; Ok (PyStr s)
            | _ => Ok src
            end) as [text|e]; cbn [bind]; [|reflexivity].
  destruct (call_extract_title text) as [t|e]; cbn [bind]; [|reflexivity].
  destruct (py_get cell (lit "outputs") (PyList [])) as [outs|e]; cbn [bind];
    [|reflexivity].
  destruct (extract_output_from_outputs outs) as [o|e]; cbn [bind];
    [|reflexivity].
  destruct (nonempty t && nonempty o); cbn [bind app];
    [reflexivity | now rewrite app_nil_r].
Qed.

Lemma cell_body_at_most_one (cell : pyval) (r : list entry) :
  cell_body [] cell = Ok r -> List.length r <= 1.
Proof.
  intros H. unfold cell_body in H. step_binds H;
    injection H as <-; simpl; lia.
Qed.

(** X7: the extraction of a document whose cells are two lists one after
    the other is the extraction of the first list followed by that of the
    second, entries in the order of the cells; an error in either part is
    the error of the whole. *)
Theorem parse_notebook_concatenates
    (notebook first second : pyval) (xs ys : list pyval) :
  notebook_cells notebook (xs ++ ys) ->
  notebook_cells first xs -> notebook_cells second ys ->
  parse_notebook notebook
  = (a <- parse_notebook first ;; b <- parse_notebook second ;; Ok (a ++ b)).
Proof.
  intros H Hx Hy.
  rewrite (parse_notebook_cells _ _ H), (parse_notebook_cells _ _ Hx),
    (parse_notebook_cells _ _ Hy).
  apply (for_each_concat cell_body cell_body_appends).
Qed.

(** X8: a successful extraction returns at most one entry per cell. *)
Theorem parse_notebook_at_most_one_per_cell
    (notebook : pyval) (cells : list pyval) (results : list entry) :
  notebook_cells notebook cells ->
  parse_notebook notebook = Ok results ->
  List.length results <= List.length cells.
Proof.
  intros H. rewrite (parse_notebook_cells _ _ H). clear H.
  revert results. induction cells as [|cell cells IH]; intros results.
  - simpl. intros E. injection E as <-. simpl. lia.
  - change (cell :: cells) with ([cell] ++ cells).
    rewrite (for_each_concat cell_body cell_body_appends).
    cbn [for_each bind].
    destruct (cell_body [] cell) as [r|e] eqn:Ec; cbn [bind]; [|discriminate].
    destruct (for_each cell_body cells []) as [rs|e]; cbn [bind];
      [|discriminate].
    intros E. injection E as <-. rewrite length_app.
    pose proof (cell_body_at_most_one _ _ Ec). specialize (IH rs eq_refl).
    simpl. lia.
Qed.

Lemma parse_notebook_concatenates_witness :
  parse_notebook mixed_notebook
  = (a <- parse_notebook
            (notebook_of
               [code_cell (PyStr compute_sum_source)
                  (PyList [stream_record (PyList [PyStr (lit "2" ++ [LF])])])]) ;;
     b <- parse_notebook
            (notebook_of
               [code_cell (PyStr compute_sum_source) (PyList []);
                code_cell (PyStr (lit "x = 1"))
                  (PyList [stream_record (PyStr (lit "1"))]);
                PyDict [(lit "cell_type", PyStr (lit "markdown"));
                        (lit "source", PyStr compute_sum_source)]]) ;;
     Ok (a ++ b)).
Proof.
  apply (parse_notebook_concatenates mixed_notebook _ _
           [code_cell (PyStr compute_sum_source)
              (PyList [stream_record (PyList [PyStr (lit "2" ++ [LF])])])]
           [code_cell (PyStr compute_sum_source) (PyList []);
            code_cell (PyStr (lit "x = 1"))
              (PyList [stream_record (PyStr (lit "1"))]);
            PyDict [(lit "cell_type", PyStr (lit "markdown"));
                    (lit "source", PyStr compute_sum_source)]]);
    (eexists; split; reflexivity).
Defined.

Lemma parse_notebook_at_most_one_per_cell_witness :
  List.length [{| title := lit "Compute Sum"; output := lit "2" |}] <= 4.
Proof.
  apply (parse_notebook_at_most_one_per_cell mixed_notebook
           [code_cell (PyStr compute_sum_source)
              (PyList [stream_record (PyList [PyStr (lit "2" ++ [LF])])]);
            code_cell (PyStr compute_sum_source) (PyList []);
            code_cell (PyStr (lit "x = 1"))
              (PyList [stream_record (PyStr (lit "1"))]);
            PyDict [(lit "cell_type", PyStr (lit "markdown"));
                    (lit "source", PyStr compute_sum_source)]]).
  - eexists; split; reflexivity.
  - reflexivity.
Defined.

(** A cell whose iteration leaves the state as it is can be dropped. *)
Lemma for_each_skip {S A : Type} (body : S -> A -> result S) (x : A)
    (pre post : list A) (st : S) :
  (forall acc, body acc x = Ok acc) ->
  for_each body (pre ++ x :: post) st = for_each body (pre ++ post) st.
Proof.
  intros Hx. rewrite !for_each_app.
  destruct (for_each body pre st) as [st1|e]; cbn [bind for_each];
    [|reflexivity].
  now rewrite Hx.
Qed.

Lemma eq_str_other (v : pyval) (s : pystr) : v <> PyStr s -> eq_str v s = false.
Proof.
  intros H. destruct v; try reflexivity. simpl.
  apply str_eqb_neq. congruence.
Qed.

(** X9: a cell whose type is not code, or that has no type, is passed over
    before its source and its outputs are read: the extraction is the one
    of the document without the cell, errors included, however malformed
    the rest of the cell is. *)
Theorem non_code_cell_skipped
    (d : list (pystr * pyval)) (with_cell without : pyval)
    (pre post : list pyval) :
  (forall v, lookup (lit "cell_type") d = Some v -> v <> PyStr (lit "code")) ->
  notebook_cells with_cell (pre ++ PyDict d :: post) ->
  notebook_cells without (pre ++ post) ->
  (forall results, cell_body results (PyDict d) = Ok results)
  /\ parse_notebook with_cell = parse_notebook without.
Proof.
  intros Hct H1 H2.
  assert (Hskip : forall results, cell_body results (PyDict d) = Ok results).
  { intros results. unfold cell_body, py_get. cbn [bind].
    destruct (lookup (lit "cell_type") d) as [v|] eqn:E.
    - now rewrite (eq_str_other v _ (Hct v eq_refl)).
    - reflexivity. }
  split; [exact Hskip|].
  rewrite (parse_notebook_cells _ _ H1), (parse_notebook_cells _ _ H2).
  now apply for_each_skip.
Qed.

Lemma non_code_cell_skipped_witness :
  parse_notebook
    (notebook_of
       [PyDict [(lit "cell_type", PyStr (lit "markdown"));
                (lit "source", PyInt 7); (lit "outputs", PyNone)];
        code_cell (PyStr compute_sum_source)
          (PyList [stream_record (PyStr (lit "2"))])])
  = parse_notebook
      (notebook_of
         [code_cell (PyStr compute_sum_source)
            (PyList [stream_record (PyStr (lit "2"))])]).
Proof.
  apply (proj2 (non_code_cell_skipped
           [(lit "cell_type", PyStr (lit "markdown"));
            (lit "source", PyInt 7); (lit "outputs", PyNone)]
           (notebook_of
              [PyDict [(lit "cell_type", PyStr (lit "markdown"));
                       (lit "source", PyInt 7); (lit "outputs", PyNone)];
               code_cell (PyStr compute_sum_source)
                 (PyList [stream_record (PyStr (lit "2"))])])
           (notebook_of
              [code_cell (PyStr compute_sum_source)
                 (PyList [stream_record (PyStr (lit "2"))])])
           []
           [code_cell (PyStr compute_sum_source)
              (PyList [stream_record (PyStr (lit "2"))])]
           ltac:(intros v E; injection E as <-; discriminate)
           ltac:(eexists; split; reflexivity)
           ltac:(eexists; split; reflexivity))).
Defined.

(** X10: a code cell whose source is absent or empty (an empty string, an
    empty list, null, zero, false, an empty object) is passed over before
    its outputs are read, so malformed outputs of such a cell raise
    nothing. *)
Theorem empty_source_cell_skipped
    (d : list (pystr * pyval)) (with_cell without : pyval)
    (pre post : list pyval) :
  lookup (lit "cell_type") d = Some (PyStr (lit "code")) ->
  (forall v, lookup (lit "source") d = Some v -> truthy v = false) ->
  notebook_cells with_cell (pre ++ PyDict d :: post) ->
  notebook_cells without (pre ++ post) ->
  (forall results, cell_body results (PyDict d) = Ok results)
  /\ parse_notebook with_cell = parse_notebook without.
Proof.
  intros Hct Hsrc H1 H2.
  assert (Hskip : forall results, cell_body results (PyDict d) = Ok results).
  { intros results. unfold cell_body, py_get. cbn [bind].
    rewrite Hct, eq_str_lit. cbn [negb].
    destruct (lookup (lit "source") d) as [v|] eqn:E.
    - now rewrite (Hsrc v eq_refl).
    - reflexivity. }
  split; [exact Hskip|].
  rewrite (parse_notebook_cells _ _ H1), (parse_notebook_cells _ _ H2).
  now apply for_each_skip.
Qed.

Lemma empty_source_cell_skipped_witness :
  parse_notebook
    (notebook_of [code_cell (PyStr []) (PyInt 3)])
  = parse_notebook (notebook_of []).
Proof.
  apply (proj2 (empty_source_cell_skipped
           [(lit "cell_type", PyStr (lit "code"));
            (lit "source", PyStr []); (lit "outputs", PyInt 3)]
           (notebook_of [code_cell (PyStr []) (PyInt 3)]) (notebook_of [])
           [] [] eq_refl
           ltac:(intros v E; injection E as <-; reflexivity)
           ltac:(eexists; split; reflexivity)
           ltac:(eexists; split; reflexivity))).
Defined.

(** X11: a cell that is not an object makes the call raise AttributeError
    when the cells before it are processed without error: the entries
    gathered so far are not returned. *)
Theorem cell_not_object_raises
    (notebook cell : pyval) (pre post : list pyval) (sofar : list entry) :
  (forall d, cell <> PyDict d) ->
  notebook_cells notebook (pre ++ cell :: post) ->
  for_each cell_body pre [] = Ok sofar ->
  parse_notebook notebook = Raise AttributeError.
Proof.
  intros Hc H Hpre. rewrite (parse_notebook_cells _ _ H), for_each_app, Hpre.
  cbn [bind for_each]. destruct cell; try reflexivity. now destruct (Hc d).
Qed.

Lemma cell_not_object_raises_witness :
  parse_notebook
    (notebook_of
       [code_cell (PyStr compute_sum_source)
          (PyList [stream_record (PyStr (lit "2"))]);
        PyStr (lit "code")])
  = Raise AttributeError.
Proof.
  apply (cell_not_object_raises
           (notebook_of
              [code_cell (PyStr compute_sum_source)
                 (PyList [stream_record (PyStr (lit "2"))]);
               PyStr (lit "code")])
           (PyStr (lit "code"))
           [code_cell (PyStr compute_sum_source)
              (PyList [stream_record (PyStr (lit "2"))])] []
           [{| title := lit "Compute Sum"; output := lit "2" |}]).
  - intros d. discriminate.
  - eexists; split; reflexivity.
  - reflexivity.
Defined.

Lemma cell_body_encodes (acc : list entry) (v : pyval) (c : Cell) :
  encodes_cell v c -> cell_body acc v = Ok (acc ++ cell_entries c).
Proof.
  intros (d & -> & Hct & Hsrc & Houts).
  unfold cell_body, cell_entries, py_get. cbn [bind]. rewrite Hct.
  cbn [eq_str]. destruct (str_eqb (cell_type c) (lit "code")); cbn [negb];
    [|now rewrite app_nil_r].
  rewrite Hsrc. destruct (source c) as [t|]; cbn [option_map];
    [|cbn; now rewrite app_nil_r].
  assert (Hout : extract_output_from_outputs
                   match lookup (lit "outputs") d with
                   | Some x => x
                   | None => PyList []
                   end
                 = Ok (spec_extract_output
                         match outputs c with Some rs => rs | None => [] end)).
  { destruct (outputs c) as [rs|].
    - destruct Houts as (vs & -> & Hvs). now apply extract_output_encodes.
    - rewrite Houts. reflexivity. }
  destruct t as [s|l]; cbn [encode_text text_is_empty truthy text_fragments].
  - destruct s as [|x s]; cbn [nonempty negb]; [now rewrite app_nil_r|].
    cbn [bind call_extract_title List.concat]. rewrite app_nil_r, Hout.
    cbn [bind]. destruct (_ && _); [reflexivity | now rewrite app_nil_r].
  - destruct l as [|x l]; cbn [nonempty negb map]; [now rewrite app_nil_r|].
    unfold py_join, py_iter. cbn [bind].
    change (PyStr x :: map PyStr l) with (map PyStr (x :: l)).
    rewrite join_items_strs, join_lines_empty_sep.
    cbn [bind call_extract_title]. rewrite Hout.
    cbn [bind]. destruct (_ && _); [reflexivity | now rewrite app_nil_r].
Qed.

(** X12: on a document whose cells and output records have the shape of the
    data model, the call raises nothing and returns, in the order of the
    cells, the entry of each code cell that has a non-empty source, a
    non-empty title and a non-empty output. *)
Theorem parse_notebook_well_formed
    (notebook : pyval) (vs : list pyval) (cs : list Cell) :
  notebook_cells notebook vs -> Forall2 encodes_cell vs cs ->
  parse_notebook notebook = Ok (flat_map cell_entries cs).
Proof.
  intros H Hcs. rewrite (parse_notebook_cells _ _ H). clear H.
  change (flat_map cell_entries cs) with ([] ++ flat_map cell_entries cs).
  generalize (@nil entry).
  induction Hcs as [|v c vs cs Hv _ IH]; intros acc; cbn [for_each flat_map].
  - now rewrite app_nil_r.
  - rewrite (cell_body_encodes acc v c Hv). cbn [bind].
    rewrite IH. now rewrite app_assoc.
Qed.

Lemma parse_notebook_well_formed_witness :
  parse_notebook
    (notebook_of
       [markdown_cell (PyStr compute_sum_source);
        code_cell (PyList [PyStr compute_sum_source])
          (PyList sample_outputs)])
  = Ok (flat_map cell_entries
          [{| cell_type := lit "markdown";
              source := Some (Scalar compute_sum_source);
              outputs := None |};
           {| cell_type := lit "code";
              source := Some (Lines [compute_sum_source]);
              outputs := Some sample_records |}]).
Proof.
  apply (parse_notebook_well_formed
           (notebook_of
              [markdown_cell (PyStr compute_sum_source);
               code_cell (PyList [PyStr compute_sum_source])
                 (PyList sample_outputs)])
           [markdown_cell (PyStr compute_sum_source);
            code_cell (PyList [PyStr compute_sum_source])
              (PyList sample_outputs)]).
  - eexists; split; reflexivity.
  - repeat constructor.
    + eexists. repeat split.
    + eexists. split; [reflexivity|]. split; [reflexivity|].
      split; [reflexivity|].
      exists sample_outputs. split; [reflexivity | exact sample_outputs_encode].
Defined.

(** X13: a source given as a list of string fragments and the same text
    given as one string are treated alike, provided the text is not empty:
    two cells that differ only in this give the same loop step. *)
Theorem source_list_or_string
    (d1 d2 : list (pystr * pyval)) (frags : list pystr)
    (results : list entry) :
  List.concat frags <> [] ->
  lookup (lit "source") d1 = Some (PyList (map PyStr frags)) ->
  lookup (lit "source") d2 = Some (PyStr (List.concat frags)) ->
  lookup (lit "cell_type") d1 = lookup (lit "cell_type") d2 ->
  lookup (lit "outputs") d1 = lookup (lit "outputs") d2 ->
  cell_body results (PyDict d1) = cell_body results (PyDict d2).
Proof.
  intros Hne H1 H2 Hct Hout. unfold cell_body, py_get. cbn [bind].
  rewrite Hct, H1, H2, Hout.
  destruct (negb (eq_str _ (lit "code"))); [reflexivity|].
  destruct frags as [|f frags]; [now destruct Hne|].
  destruct (List.concat (f :: frags)) as [|c s] eqn:E; [now destruct Hne|].
  cbn [truthy nonempty negb map]. unfold py_join, py_iter. cbn [bind].
  change (PyStr f :: map PyStr frags) with (map PyStr (f :: frags)).
  rewrite join_items_strs, join_lines_empty_sep, E. reflexivity.
Qed.

Lemma source_list_or_string_witness :
  cell_body []
    (code_cell (PyList [PyStr TRIPLE; PyStr (lit "T" ++ [LF])])
       (PyList [stream_record (PyStr (lit "1"))]))
  = cell_body []
      (code_cell (PyStr (TRIPLE ++ lit "T" ++ [LF]))
         (PyList [stream_record (PyStr (lit "1"))])).
Proof.
  apply (source_list_or_string
           [(lit "cell_type", PyStr (lit "code"));
            (lit "source", PyList [PyStr TRIPLE; PyStr (lit "T" ++ [LF])]);
            (lit "outputs", PyList [stream_record (PyStr (lit "1"))])]
           [(lit "cell_type", PyStr (lit "code"));
            (lit "source", PyStr (TRIPLE ++ lit "T" ++ [LF]));
            (lit "outputs", PyList [stream_record (PyStr (lit "1"))])]
           [TRIPLE; lit "T" ++ [LF]] []);
    [discriminate | reflexivity ..].
Defined.

(** X14: a code cell whose non-empty source has no place where a docstring
    title stands adds no entry, whatever its outputs hold: a successful
    extraction returns what it returns without the cell. *)
Theorem cell_without_docstring_excluded
    (d : list (pystr * pyval)) (s : pystr) (with_cell without : pyval)
    (pre post : list pyval) (results : list entry) :
  lookup (lit "cell_type") d = Some (PyStr (lit "code")) ->
  source_of d s -> s <> [] ->
  (forall i g, ~ docstring_at s i g) ->
  notebook_cells with_cell (pre ++ PyDict d :: post) ->
  notebook_cells without (pre ++ post) ->
  parse_notebook with_cell = Ok results ->
  parse_notebook without = Ok results.
Proof.
  intros Hct Hsrc Hne Hno H1 H2.
  rewrite (parse_notebook_cells _ _ H1), (parse_notebook_cells _ _ H2).
  apply (for_each_drop_cell (PyDict d)
           (_ <- extract_output_from_outputs (outputs_of d) ;; Ok tt)).
  intros acc.
  rewrite (cell_body_empty_title d s acc Hct Hsrc Hne).
  - destruct (extract_output_from_outputs (outputs_of d)); reflexivity.
  - unfold extract_title_from_source. now rewrite (re_search_none _ Hno).
Qed.

Lemma cell_without_docstring_excluded_witness :
  parse_notebook (notebook_of []) = Ok [].
Proof.
  apply (cell_without_docstring_excluded
           [(lit "cell_type", PyStr (lit "code"));
            (lit "source", PyStr (lit "x = 1"));
            (lit "outputs", PyList [stream_record (PyStr (lit "1"))])]
           (lit "x = 1")
           (notebook_of
              [code_cell (PyStr (lit "x = 1"))
                 (PyList [stream_record (PyStr (lit "1"))])])
           (notebook_of []) [] [] []).
  - reflexivity.
  - left. reflexivity.
  - discriminate.
  - now apply no_docstring_at.
  - eexists; split; reflexivity.
  - eexists; split; reflexivity.
  - reflexivity.
Defined.

(** X15: a code cell whose source is a string, or a list of strings, and
    whose outputs are absent or an empty list adds no entry and raises
    nothing, whatever its title: the extraction is the one of the document
    without the cell. *)
Theorem cell_without_outputs_skipped
    (d : list (pystr * pyval)) (s : pystr) (with_cell without : pyval)
    (pre post : list pyval) :
  lookup (lit "cell_type") d = Some (PyStr (lit "code")) ->
  source_of d s ->
  lookup (lit "outputs") d = None
  \/ lookup (lit "outputs") d = Some (PyList []) ->
  notebook_cells with_cell (pre ++ PyDict d :: post) ->
  notebook_cells without (pre ++ post) ->
  parse_notebook with_cell = parse_notebook without.
Proof.
  intros Hct Hsrc Hout H1 H2.
  rewrite (parse_notebook_cells _ _ H1), (parse_notebook_cells _ _ H2).
  apply for_each_skip. intros acc.
  unfold cell_body, py_get. cbn [bind]. rewrite Hct, eq_str_lit. cbn [negb].
  assert (Ho : extract_output_from_outputs
                 match lookup (lit "outputs") d with
                 | Some v => v
                 | None => PyList []
                 end = Ok []).
  { destruct Hout as [-> | ->]; reflexivity. }
  destruct Hsrc as [Hs | (frags & Hs & Hc)]; rewrite Hs.
  - destruct s as [|c s]; [reflexivity|].
    cbn [truthy nonempty negb bind call_extract_title]. rewrite Ho.
    cbn [bind nonempty]. now rewrite andb_false_r.
  - destruct frags as [|f frags]; [reflexivity|].
    cbn [truthy nonempty negb map]. unfold py_join, py_iter. cbn [bind].
    change (PyStr f :: map PyStr frags) with (map PyStr (f :: frags)).
    rewrite join_items_strs. cbn [bind call_extract_title]. rewrite Ho.
    cbn [bind nonempty]. now rewrite andb_false_r.
Qed.

Lemma cell_without_outputs_skipped_witness :
  parse_notebook
    (notebook_of [code_cell (PyStr compute_sum_source) (PyList [])])
  = parse_notebook (notebook_of []).
Proof.
  apply (cell_without_outputs_skipped
           [(lit "cell_type", PyStr (lit "code"));
            (lit "source", PyStr compute_sum_source);
            (lit "outputs", PyList [])]
           compute_sum_source
           (notebook_of [code_cell (PyStr compute_sum_source) (PyList [])])
           (notebook_of []) [] []).
  - reflexivity.
  - left. reflexivity.
  - right. reflexivity.
  - eexists; split; reflexivity.
  - eexists; split; reflexivity.
Defined.

(** * Further properties of the default output path *)

Lemma replace_from_no_occurrence (old new s : pystr) :
  (forall pre post, s <> pre ++ old ++ post) ->
  replace_from old new 0 s = s.
Proof.
  induction s as [|c s IH]; intros H; [reflexivity|].
  cbn [replace_from].
  destruct (is_prefix old (c :: s)) eqn:E.
  - destruct (is_prefix_elim _ _ E) as [t Ht]. now destruct (H [] t).
  - f_equal. apply IH. intros pre post Hs. apply (H (c :: pre) post).
    now rewrite Hs.
Qed.

Lemma replace_from_length (old new : pystr) :
  old <> [] -> List.length old <= List.length new ->
  forall s k,
    List.length s <= List.length (replace_from old new k s) + k.
Proof.
  intros Hold Hlen s. induction s as [|c s IH]; intros k; [simpl; lia|].
  cbn [replace_from]. destruct k as [|k].
  - destruct (is_prefix old (c :: s)).
    + rewrite length_app. specialize (IH (pred (List.length old))).
      destruct old; [congruence|]. simpl in *. lia.
    + specialize (IH 0). simpl. lia.
  - specialize (IH k). simpl. lia.
Qed.

Lemma str_replace_grows (s old new : pystr) :
  old <> [] -> List.length old < List.length new ->
  (exists pre post, s = pre ++ old ++ post) ->
  List.length s < List.length (str_replace s old new).
Proof.
  intros Hold Hlen. unfold str_replace.
  induction s as [|c s IH]; intros (pre & post & E).
  - destruct pre; [destruct old; [congruence | discriminate] | discriminate].
  - cbn [replace_from]. destruct (is_prefix old (c :: s)) eqn:Ep.
    + rewrite length_app.
      pose proof (replace_from_length old new Hold ltac:(lia) s
                    (pred (List.length old))).
      destruct old; [congruence|]. simpl in *. lia.
    + destruct pre as [|x pre].
      * rewrite E in Ep. rewrite app_nil_l, is_prefix_app in Ep. discriminate.
      * injection E as -> E. simpl.
        assert (List.length s < List.length (replace_from old new 0 s)).
        { apply IH. now exists pre, post. }
        lia.
Qed.

(** X16: the default output path is the notebook path itself exactly when
    the notebook path holds no occurrence of the notebook ending; the
    results are then written to the notebook file. *)
Theorem default_output_path_same_iff (notebook_path : pystr) :
  save_parsed_results_output_path notebook_path None = notebook_path
  <-> ~ (exists pre post, notebook_path = pre ++ lit ".ipynb" ++ post).
Proof.
  unfold save_parsed_results_output_path. split.
  - intros E Hocc.
    pose proof (str_replace_grows notebook_path (lit ".ipynb")
                  (lit "_parsed.json") ltac:(discriminate)
                  ltac:(simpl; lia) Hocc) as Hlt.
    rewrite E in Hlt. lia.
  - intros Hno. apply replace_from_no_occurrence.
    intros pre post E. apply Hno. now exists pre, post.
Qed.

Lemma default_output_path_same_iff_witness :
  save_parsed_results_output_path (lit "notes.json") None = lit "notes.json".
Proof.
  apply (proj2 (default_output_path_same_iff (lit "notes.json"))).
  intros Hocc.
  pose proof (str_replace_grows (lit "notes.json") (lit ".ipynb")
                (lit "_parsed.json") ltac:(discriminate)
                ltac:(simpl; lia) Hocc) as Hlt.
  vm_compute in Hlt. lia.
Defined.

(** X17: when the notebook path ends with the notebook ending and holds it
    nowhere else, the default output path is the path with that ending
    replaced by the output ending and the rest unchanged. *)
Theorem default_output_path_ending_replaced (stem : pystr) :
  (forall pre post,
     stem ++ lit ".ipynb" = pre ++ lit ".ipynb" ++ post -> pre = stem) ->
  save_parsed_results_output_path (stem ++ lit ".ipynb") None
  = stem ++ lit "_parsed.json".
Proof.
  intros H. unfold save_parsed_results_output_path.
  apply str_replace_only_ending; [discriminate | exact H].
Qed.

Lemma default_output_path_ending_replaced_witness :
  save_parsed_results_output_path (lit "nb" ++ lit ".ipynb") None
  = lit "nb" ++ lit "_parsed.json".
Proof.
  apply (default_output_path_ending_replaced (lit "nb")).
  intros pre post H. vm_compute in H.
  destruct pre as [|c1 pre]; [discriminate H|]. injection H as <- H.
  destruct pre as [|c2 pre]; [discriminate H|]. injection H as <- H.
  destruct pre as [|c3 pre]; [reflexivity|]. exfalso. injection H as <- H.
  destruct pre as [|c4 pre]; [discriminate H|]. injection H as <- H.
  destruct pre as [|c5 pre]; [discriminate H|]. injection H as <- H.
  destruct pre as [|c6 pre]; [discriminate H|]. injection H as <- H.
  destruct pre as [|c7 pre]; [discriminate H|]. injection H as <- H.
  destruct pre as [|c8 pre]; [discriminate H|]. injection H as <- H.
  destruct pre as [|c9 pre]; discriminate H.
Defined.

(** * Escape sequences around a text *)

Lemma letter_not_param (c : codepoint) :
  is_ascii_letter c = true -> is_ansi_param c = false.
Proof.
  unfold is_ascii_letter, is_ansi_param. intros H.
  apply orb_true_iff in H.
  repeat rewrite andb_true_iff in H. repeat rewrite N.leb_le in H.
  apply orb_false_iff. split; [apply orb_false_iff; split|].
  - apply N.eqb_neq. lia.
  - apply N.eqb_neq. lia.
  - apply andb_false_iff. rewrite !N.leb_gt. lia.
Qed.

Lemma letter_not_space (c : codepoint) :
  is_ascii_letter c = true -> isspace c = false.
Proof.
  unfold is_ascii_letter, isspace. intros H.
  apply orb_true_iff in H.
  repeat rewrite andb_true_iff in H. repeat rewrite N.leb_le in H.
  repeat (apply orb_false_iff; split);
    try (apply N.eqb_neq; lia);
    apply andb_false_iff; rewrite !N.leb_gt; lia.
Qed.

Lemma span_params_app (ps : pystr) (c : codepoint) (rest : pystr) :
  Forall (fun p => is_ansi_param p = true) ps -> is_ansi_param c = false ->
  span_params (ps ++ c :: rest) = (ps, c :: rest).
Proof.
  induction 1 as [|p ps Hp _ IH]; intros Hc; simpl.
  - now rewrite Hc.
  - now rewrite Hp, IH.
Qed.

Lemma sub_ansi_skip (a : pystr) (x : codepoint) (rest : pystr) :
  sub_ansi (S (List.length a)) (a ++ x :: rest) = sub_ansi 0 rest.
Proof. induction a as [|y a IH]; [reflexivity | exact IH]. Qed.

Lemma sub_ansi_sequence (q rest : pystr) :
  ansi_sequence q -> sub_ansi 0 (q ++ rest) = sub_ansi 0 rest.
Proof.
  intros (ps & c & -> & Hps & Hc).
  change ((ESC :: LBRACKET :: ps ++ [c]) ++ rest)
    with (ESC :: LBRACKET :: (ps ++ [c]) ++ rest).
  rewrite <- app_assoc. cbn [sub_ansi app]. unfold match_ansi_at.
  rewrite !N.eqb_refl. cbn [andb].
  rewrite (span_params_app ps c rest Hps (letter_not_param c Hc)), Hc.
  cbn [pred plus sub_ansi]. apply sub_ansi_skip.
Qed.

Lemma sub_ansi_app_no_escape (body t : pystr) :
  ~ In ESC body -> sub_ansi 0 (body ++ t) = body ++ sub_ansi 0 t.
Proof.
  induction body as [|c body IH]; intros H; [reflexivity|].
  assert (Hc : N.eqb c ESC = false).
  { apply N.eqb_neq. intros ->. apply H. now left. }
  assert (Hm : match_ansi_at (c :: body ++ t) = None).
  { unfold match_ansi_at. destruct (body ++ t); [reflexivity|].
    now rewrite Hc. }
  cbn [app sub_ansi]. rewrite Hm. f_equal. apply IH.
  intros Hin. apply H. now right.
Qed.

(** X18: the trim comes before the escape removal, so a text that stands
    between two escape sequences is returned as it is, with the blanks it
    has at its ends. *)
Theorem text_between_escapes_not_trimmed
    (v : pyval) (q1 q2 body : pystr) :
  ansi_sequence q1 -> ansi_sequence q2 -> ~ In ESC body ->
  encodes v (Stream (Scalar (q1 ++ body ++ q2))) ->
  extract_output_from_outputs (PyList [v]) = Ok body.
Proof.
  intros H1 H2 Hb Hv.
  rewrite (extract_output_encodes [v] [Stream (Scalar (q1 ++ body ++ q2))])
    by (repeat constructor; exact Hv).
  unfold spec_extract_output.
  cbn [flat_map record_fragments text_fragments List.concat app].
  rewrite !app_nil_r. rewrite strip_no_blank_ends.
  - unfold remove_ansi_codes.
    rewrite (sub_ansi_sequence q1 _ H1), (sub_ansi_app_no_escape _ _ Hb).
    rewrite <- (app_nil_r q2), (sub_ansi_sequence q2 [] H2).
    now rewrite app_nil_r.
  - destruct H1 as (ps & c & -> & _). intros x r E.
    injection E as <- _. reflexivity.
  - destruct H2 as (ps & c & -> & _ & Hc). intros r x E.
    change (q1 ++ body ++ ESC :: LBRACKET :: ps ++ [c])
      with (q1 ++ body ++ [ESC; LBRACKET] ++ ps ++ [c]) in E.
    rewrite !app_assoc in E. apply app_inj_tail in E. destruct E as [_ <-].
    now apply letter_not_space.
Qed.

Lemma text_between_escapes_not_trimmed_witness :
  extract_output_from_outputs
    (PyList [stream_record
               (PyStr (([ESC] ++ lit "[31m") ++ lit "  hi  "
                         ++ ([ESC] ++ lit "[0m")))])
  = Ok (lit "  hi  ").
Proof.
  apply (text_between_escapes_not_trimmed _
           ([ESC] ++ lit "[31m") ([ESC] ++ lit "[0m") (lit "  hi  ")).
  - exists (lit "31"), 109%N. repeat split. repeat constructor.
  - exists (lit "0"), 109%N. repeat split. repeat constructor.
  - vm_compute. intuition discriminate.
  - eexists. split; [reflexivity|]. split; reflexivity.
Defined.

(** * The saved text *)

Example json_dump_text_two_entries :
  json_dump_text
    [{| title := lit "a"; output := lit "x" ++ [LF] ++ lit "y" |};
     {| title := lit "b"; output := [DQUOTE; 7%N] |}]
  = lit "[" ++ [LF]
      ++ lit "  {" ++ [LF]
      ++ lit "    " ++ [DQUOTE] ++ lit "title" ++ [DQUOTE] ++ lit ": "
      ++ [DQUOTE] ++ lit "a" ++ [DQUOTE] ++ lit "," ++ [LF]
      ++ lit "    " ++ [DQUOTE] ++ lit "output" ++ [DQUOTE] ++ lit ": "
      ++ [DQUOTE] ++ lit "x\ny" ++ [DQUOTE] ++ [LF]
      ++ lit "  }," ++ [LF]
      ++ lit "  {" ++ [LF]
      ++ lit "    " ++ [DQUOTE] ++ lit "title" ++ [DQUOTE] ++ lit ": "
      ++ [DQUOTE] ++ lit "b" ++ [DQUOTE] ++ lit "," ++ [LF]
      ++ lit "    " ++ [DQUOTE] ++ lit "output" ++ [DQUOTE] ++ lit ": "
      ++ [DQUOTE] ++ lit "\" ++ [DQUOTE] ++ lit "\u0007" ++ [DQUOTE] ++ [LF]
      ++ lit "  }" ++ [LF]
      ++ lit "]".
Proof. reflexivity. Qed.

Lemma hex_val_digit (n : N) : (n < 16)%N -> hex_val (hex_digit n) = n.
Proof.
  intros H. unfold hex_val, hex_digit.
  destruct (N.ltb_spec n 10).
  - destruct (N.ltb_spec (48 + n) 58); lia.
  - destruct (N.ltb_spec (87 + n) 58); lia.
Qed.

Lemma read_plain (c : codepoint) (rest : pystr) :
  c <> DQUOTE -> c <> BACKSLASH ->
  read_string_body (c :: rest) = push c (read_string_body rest).
Proof.
  intros H1 H2. cbn [read_string_body].
  apply N.eqb_neq in H1, H2. now rewrite H1, H2.
Qed.

Lemma read_escaped (c : codepoint) (rest : pystr) :
  read_string_body (escape_char c ++ rest) = push c (read_string_body rest).
Proof.
  unfold escape_char.
  destruct (N.eqb_spec c 34) as [->|H34]; [reflexivity|].
  destruct (N.eqb_spec c 92) as [->|H92]; [reflexivity|].
  destruct (N.eqb_spec c 8) as [->|H8]; [reflexivity|].
  destruct (N.eqb_spec c 12) as [->|H12]; [reflexivity|].
  destruct (N.eqb_spec c 10) as [->|H10]; [reflexivity|].
  destruct (N.eqb_spec c 13) as [->|H13]; [reflexivity|].
  destruct (N.eqb_spec c 9) as [->|H9]; [reflexivity|].
  destruct (N.ltb_spec c 32) as [Hlt|Hge].
  - change (read_string_body
              ([BACKSLASH; 117%N; 48%N; 48%N; hex_digit (c / 16);
                hex_digit (c mod 16)] ++ rest))
      with (push (((hex_val 48 * 16 + hex_val 48) * 16
                   + hex_val (hex_digit (c / 16))) * 16
                  + hex_val (hex_digit (c mod 16)))%N
              (read_string_body rest)).
    rewrite !hex_val_digit.
    + f_equal. change (hex_val 48%N) with 0%N.
      pose proof (N.div_mod c 16%N ltac:(lia)). lia.
    + apply N.mod_lt. lia.
    + apply N.Div0.div_lt_upper_bound. lia.
  - apply read_plain; assumption.
Qed.

Lemma read_literal (s rest : pystr) :
  read_string_body (flat_map escape_char s ++ DQUOTE :: rest) = Some (s, rest).
Proof.
  induction s as [|c s IH]; [reflexivity|].
  cbn [flat_map]. rewrite <- app_assoc, read_escaped, IH. reflexivity.
Qed.

(** A string literal ends where its closing quote stands: two literals
    followed by any texts agree only when the strings and the texts do. *)
Lemma encode_basestring_prefix_free (a b x y : pystr) :
  encode_basestring a ++ x = encode_basestring b ++ y -> a = b /\ x = y.
Proof.
  unfold encode_basestring. cbn [app]. rewrite <- !app_assoc. cbn [app].
  intros E. injection E as E. apply (f_equal read_string_body) in E.
  rewrite !read_literal in E. now injection E.
Qed.

Lemma dump_entry_prefix_free (e1 e2 : entry) (x y : pystr) :
  dump_entry e1 ++ x = dump_entry e2 ++ y -> e1 = e2 /\ x = y.
Proof.
  unfold dump_entry. rewrite <- !app_assoc. intros E.
  repeat (apply app_inv_head in E).
  apply encode_basestring_prefix_free in E. destruct E as [Ht E].
  repeat (apply app_inv_head in E).
  apply encode_basestring_prefix_free in E. destruct E as [Ho E].
  repeat (apply app_inv_head in E).
  split; [|exact E]. destruct e1, e2. simpl in *. congruence.
Qed.

Lemma dump_entries_cons (e : entry) (rest : list entry) (x : pystr) :
  dump_entries (e :: rest) ++ x
  = dump_entry e
      ++ match rest with
         | [] => x
         | _ :: _ => lit "," ++ [LF] ++ lit "  " ++ dump_entries rest ++ x
         end.
Proof.
  destruct rest as [|e' rest]; [reflexivity|].
  cbn [dump_entries]. now rewrite <- !app_assoc.
Qed.

Lemma dump_entries_injective (r1 r2 : list entry) (e1 e2 : entry) :
  dump_entries (e1 :: r1) ++ [LF] ++ lit "]"
  = dump_entries (e2 :: r2) ++ [LF] ++ lit "]" ->
  e1 :: r1 = e2 :: r2.
Proof.
  revert r2 e1 e2. induction r1 as [|a r1 IH]; intros r2 e1 e2 E;
    rewrite (dump_entries_cons e1), (dump_entries_cons e2) in E;
    apply dump_entry_prefix_free in E; destruct E as [<- E].
  - destruct r2 as [|b r2]; [reflexivity | discriminate E].
  - destruct r2 as [|b r2]; [discriminate E|].
    do 3 apply app_inv_head in E. now rewrite (IH _ _ _ E).
Qed.

(** X19: the saved text determines the results: two result lists that are
    written as the same text are the same list, entry by entry. *)
Theorem json_dump_text_injective (results1 results2 : list entry) :
  json_dump_text results1 = json_dump_text results2 -> results1 = results2.
Proof.
  destruct results1 as [|e1 r1], results2 as [|e2 r2]; intros E.
  - reflexivity.
  - discriminate E.
  - discriminate E.
  - unfold json_dump_text in E. do 3 apply app_inv_head in E.
    now apply dump_entries_injective.
Qed.

Lemma json_dump_text_injective_witness :
  [{| title := lit "a"; output := [LF; DQUOTE] |}]
  = [{| title := lit "a"; output := [LF] ++ [DQUOTE] |}].
Proof.
  apply (json_dump_text_injective
           [{| title := lit "a"; output := [LF; DQUOTE] |}]
           [{| title := lit "a"; output := [LF] ++ [DQUOTE] |}] eq_refl).
Defined.

Lemma hex_digit_printable (n : N) : (32 <= hex_digit n)%N.
Proof. unfold hex_digit. destruct (N.ltb_spec n 10); lia. Qed.

Lemma escape_char_printable (c : codepoint) :
  Forall (fun x => (32 <= x)%N) (escape_char c).
Proof.
  unfold escape_char.
  repeat match goal with
         | |- context [N.eqb c ?k] => destruct (N.eqb_spec c k)
         end;
    try (repeat constructor; unfold BACKSLASH; lia).
  destruct (N.ltb_spec c 32).
  - repeat constructor; unfold BACKSLASH; try lia; apply hex_digit_printable.
  - repeat constructor. lia.
Qed.

(** X20: a string literal of the saved text holds no code point below 32:
    the line feeds, tabs and other control characters of a title or an
    output are always written as escapes. *)
Theorem encode_basestring_no_control (s : pystr) :
  Forall (fun x => (32 <= x)%N) (encode_basestring s).
Proof.
  unfold encode_basestring. constructor; [unfold DQUOTE; lia|].
  apply Forall_app. split.
  - induction s as [|c s IH]; [constructor|].
    cbn [flat_map]. apply Forall_app. split; [apply escape_char_printable|].
    exact IH.
  - repeat constructor. unfold DQUOTE. lia.
Qed.

(** * The escape removal, stated on its own *)

Lemma span_params_split (s g t : pystr) :
  span_params s = (g, t) ->
  s = g ++ t /\ Forall (fun p => is_ansi_param p = true) g.
Proof.
  revert g t; induction s as [|c s IH]; simpl; intros g t H.
  - injection H as <- <-. auto.
  - destruct (is_ansi_param c) eqn:Hc.
    + destruct (span_params s) as [g' t'].
      injection H as <- <-. destruct (IH _ _ eq_refl) as [-> Hg].
      split; [reflexivity | now constructor].
    + injection H as <- <-. auto.
Qed.

Lemma match_ansi_at_sequence (q t : pystr) :
  ansi_sequence q -> exists n, match_ansi_at (q ++ t) = Some n.
Proof.
  intros (ps & c & -> & Hps & Hc).
  change ((ESC :: LBRACKET :: ps ++ [c]) ++ t)
    with (ESC :: LBRACKET :: (ps ++ [c]) ++ t).
  rewrite <- app_assoc. unfold match_ansi_at.
  rewrite !N.eqb_refl. cbn [andb app].
  rewrite (span_params_app ps c t Hps (letter_not_param c Hc)), Hc.
  now eexists.
Qed.

Lemma match_ansi_at_some (s : pystr) (n : nat) :
  match_ansi_at s = Some n -> exists q t, ansi_sequence q /\ s = q ++ t.
Proof.
  unfold match_ansi_at. destruct s as [|e [|b r]]; try discriminate.
  destruct (N.eqb_spec e ESC) as [->|]; [|discriminate].
  destruct (N.eqb_spec b LBRACKET) as [->|]; [|discriminate].
  cbn [andb]. destruct (span_params r) as [ps t] eqn:E.
  destruct t as [|c t]; [discriminate|].
  destruct (is_ascii_letter c) eqn:Hc; [|discriminate]. intros _.
  destruct (span_params_split _ _ _ E) as [-> Hps].
  exists (ESC :: LBRACKET :: ps ++ [c]), t. split.
  - now exists ps, c.
  - cbn [app]. now rewrite <- app_assoc.
Qed.

Lemma ansi_sequence_length (q : pystr) :
  ansi_sequence q -> 0 < List.length q.
Proof. intros (ps & c & -> & _). simpl. lia. Qed.

(** The removal of the code does what [ansi_removed] says. *)
Lemma remove_ansi_codes_spec (s : pystr) :
  ansi_removed s (remove_ansi_codes s).
Proof.
  unfold remove_ansi_codes.
  assert (H : forall n s, List.length s <= n -> ansi_removed s (sub_ansi 0 s)).
  { clear s. induction n as [|n IH]; intros s Hl.
    - destruct s; [constructor | simpl in Hl; lia].
    - destruct s as [|c r]; [constructor|].
      destruct (match_ansi_at (c :: r)) as [k|] eqn:E.
      + destruct (match_ansi_at_some _ _ E) as (q & t & Hq & Es).
        rewrite Es, (sub_ansi_sequence q t Hq).
        apply ansi_removed_drop; [exact Hq|]. apply IH.
        pose proof (ansi_sequence_length q Hq).
        apply (f_equal (@List.length codepoint)) in Es.
        rewrite length_app in Es. simpl in Es, Hl. lia.
      + cbn [sub_ansi]. rewrite E. apply ansi_removed_keep.
        * intros q t Hq Es. destruct (match_ansi_at_sequence q t Hq) as [k Hk].
          rewrite <- Es in Hk. congruence.
        * apply IH. simpl in Hl. lia. }
  now apply (H (List.length s)).
Qed.

Lemma ansi_sequence_unique (q q' t t' : pystr) :
  ansi_sequence q -> ansi_sequence q' -> q ++ t = q' ++ t' ->
  q = q' /\ t = t'.
Proof.
  intros (ps & c & -> & Hps & Hc) (ps' & c' & -> & Hps' & Hc') E.
  cbn [app] in E. injection E as E. rewrite <- !app_assoc in E.
  apply (f_equal span_params) in E. cbn [app] in E.
  rewrite (span_params_app ps c t Hps (letter_not_param c Hc)) in E.
  rewrite (span_params_app ps' c' t' Hps' (letter_not_param c' Hc')) in E.
  injection E as -> -> ->. auto.
Qed.

(** What [ansi_removed] says of a string, it says of one result only. *)
Lemma ansi_removed_unique (s o1 o2 : pystr) :
  ansi_removed s o1 -> ansi_removed s o2 -> o1 = o2.
Proof.
  assert (H : forall n s o1 o2, List.length s <= n ->
                ansi_removed s o1 -> ansi_removed s o2 -> o1 = o2).
  { clear. induction n as [|n IH]; intros s o1 o2 Hl H1 H2.
    - destruct s; [|simpl in Hl; lia].
      inversion H1 as [|q rest out Hq _ Es|]; subst.
      + inversion H2 as [|q' rest' out' Hq' _ Es'|]; subst; [reflexivity|].
        pose proof (ansi_sequence_length q' Hq').
        apply (f_equal (@List.length codepoint)) in Es'.
        rewrite length_app in Es'. simpl in Es'. lia.
      + pose proof (ansi_sequence_length q Hq).
        apply (f_equal (@List.length codepoint)) in Es.
        rewrite length_app in Es. simpl in Es. lia.
    - inversion H1 as [|q rest out Hq Hr Es|c rest out Hno Hr Es]; subst.
      + inversion H2 as [|q' rest' out' Hq' _ Es'|]; subst; [reflexivity|].
        pose proof (ansi_sequence_length q' Hq').
        apply (f_equal (@List.length codepoint)) in Es'.
        rewrite length_app in Es'. simpl in Es'. lia.
      + inversion H2 as [Es'|q' rest' out' Hq' Hr' Es'|c' rest' out' Hno' Hr' Es'];
          subst.
        * pose proof (ansi_sequence_length q Hq).
          apply (f_equal (@List.length codepoint)) in Es'.
          rewrite length_app in Es'. simpl in Es'. lia.
        * destruct (ansi_sequence_unique _ _ _ _ Hq' Hq Es') as [-> ->].
          apply (IH rest); try assumption.
          pose proof (ansi_sequence_length q Hq).
          rewrite length_app in Hl. lia.
        * now destruct (Hno' q rest Hq).
      + inversion H2 as [|q' rest' out' Hq' Hr' Es'|c' rest' out' Hno' Hr' Es'];
          subst.
        * now destruct (Hno q' rest' Hq').
        * f_equal. apply (IH rest); try assumption. simpl in Hl. lia. }
  intros H1 H2. exact (H (List.length s) s o1 o2 (le_n _) H1 H2).
Qed.

(** * The output normalizer against the specification *)

Lemma output_body_with_defaults
    (acc : list pyval) (v : pyval) (r : OutputRecord) :
  encodes_with_defaults v r ->
  output_body acc v = Ok (acc ++ map PyStr (record_fragments r)).
Proof.
  intros [H | (d & -> & H)]; [now apply output_body_encodes|].
  unfold output_body, py_get. cbn [bind].
  destruct r as [t|o|tb|tag].
  - destruct H as (-> & -> & ->). now rewrite eq_str_lit.
  - destruct H as (-> & -> & ->).
    change (eq_str (PyStr (lit "execute_result")) (lit "stream")) with false.
    now rewrite eq_str_lit.
  - destruct H as (-> & -> & ->).
    change (eq_str (PyStr (lit "error")) (lit "stream")) with false.
    change (eq_str (PyStr (lit "error")) (lit "execute_result")) with false.
    rewrite eq_str_lit. cbn. now rewrite app_nil_r.
  - destruct H as (-> & ->). cbn. now rewrite app_nil_r.
Qed.

Lemma collect_with_defaults (vs : list pyval) (rs : list OutputRecord) :
  Forall2 encodes_with_defaults vs rs ->
  collect_output_texts (PyList vs)
  = Ok (map PyStr (flat_map record_fragments rs)).
Proof.
  intros H. unfold collect_output_texts, py_iter. cbn [bind].
  change (map PyStr (flat_map record_fragments rs))
    with ([] ++ map PyStr (flat_map record_fragments rs)).
  generalize (@nil pyval).
  induction H as [|v r vs rs Hv _ IH]; intros acc; cbn [for_each flat_map].
  - now rewrite app_nil_r.
  - rewrite (output_body_with_defaults _ _ _ Hv). cbn [bind].
    rewrite IH, map_app, app_assoc. reflexivity.
Qed.

(** C6: on every sequence of output records, fields that carry a text
    present or absent, the function returns the fragments concatenated
    without separator, then trimmed, then stripped of escape sequences, in
    that order: the concatenation is whitespace, a raw text without
    whitespace at its ends, whitespace, and the result is the raw text with
    its escape sequences dropped from left to right; without records, or
    when every fragment is empty, it returns the empty string and raises
    nothing. *)
Theorem extract_output_refines_spec
    (vs : list pyval) (rs : list OutputRecord) :
  Forall2 encodes_with_defaults vs rs ->
  (exists raw out ws1 ws2,
     extract_output_from_outputs (PyList vs) = Ok out
     /\ List.concat (flat_map record_fragments rs) = ws1 ++ raw ++ ws2
     /\ Forall (fun c => isspace c = true) ws1
     /\ Forall (fun c => isspace c = true) ws2
     /\ no_blank_ends raw
     /\ ansi_removed raw out)
  /\ extract_output_from_outputs (PyList []) = Ok []
  /\ ((forall f, In f (flat_map record_fragments rs) -> f = []) ->
      extract_output_from_outputs (PyList vs) = Ok []).
Proof.
  intros H.
  assert (E : extract_output_from_outputs (PyList vs)
              = Ok (remove_ansi_codes
                      (strip (List.concat (flat_map record_fragments rs))))).
  { unfold extract_output_from_outputs.
    rewrite (collect_with_defaults _ _ H). cbn [bind].
    now rewrite join_items_strs, join_lines_empty_sep. }
  repeat split.
  - destruct (strip_trimmed (List.concat (flat_map record_fragments rs)))
      as (a & b & Ec & Ha & Hb & Hends).
    exists (strip (List.concat (flat_map record_fragments rs))),
      (remove_ansi_codes
         (strip (List.concat (flat_map record_fragments rs)))), a, b.
    repeat split; try assumption; try apply Hends.
    apply remove_ansi_codes_spec.
  - intros Hall. rewrite E. now rewrite (concat_all_empty _ Hall).
Qed.

Lemma coloured_outputs_encode :
  Forall2 encodes_with_defaults coloured_outputs coloured_records.
Proof.
  apply Forall2_cons; [|apply Forall2_cons; [|apply Forall2_cons;
    [|apply Forall2_cons; [|apply Forall2_nil]]]].
  - left. eexists. split; [reflexivity|]. split; reflexivity.
  - right. eexists. split; [reflexivity|]. repeat split.
  - right. eexists. split; [reflexivity|]. repeat split.
  - right. eexists. split; [reflexivity|]. repeat split.
Defined.

Lemma extract_output_refines_spec_witness :
  extract_output_from_outputs (PyList coloured_outputs) = Ok (lit "red text").
Proof.
  destruct (proj1 (extract_output_refines_spec
                     coloured_outputs coloured_records coloured_outputs_encode))
    as (raw & out & ws1 & ws2 & E & Ec & H1 & H2 & Hends & Hrem).
  rewrite E. f_equal.
  assert (Hraw : raw = [ESC] ++ lit "[31mred" ++ [ESC] ++ lit "[0m text").
  { apply (trimmed_of_unique
             (List.concat (flat_map record_fragments coloured_records))).
    - exists ws1, ws2. auto.
    - exists (lit "  "), (lit " " ++ [LF]).
      repeat split; try (repeat constructor);
        now apply (no_blank_endsb_ok
                     ([ESC] ++ lit "[31mred" ++ [ESC] ++ lit "[0m text")). }
  subst raw. apply (ansi_removed_unique _ _ _ Hrem).
  apply (ansi_removed_drop ([ESC] ++ lit "[31m")
           (lit "red" ++ [ESC] ++ lit "[0m text") (lit "red text")).
  { exists (lit "31"), 109%N. repeat split. repeat constructor. }
  do 3 (apply ansi_removed_keep;
        [intros q t (ps & c & -> & _) Eq; discriminate Eq|]).
  apply (ansi_removed_drop ([ESC] ++ lit "[0m") (lit " text") (lit " text")).
  { exists (lit "0"), 109%N. repeat split. repeat constructor. }
  do 5 (apply ansi_removed_keep;
        [intros q t (ps & c & -> & _) Eq; discriminate Eq|]).
  constructor.
Defined.
